(** * cal-ai: the food-log application core

    A shallow embedding of [src/App.tsx] (the [App] component: its React
    state, its effects and its handlers) and of the [Profile] component
    (its [handleGoalChange] and [handleClearData] handlers), together with
    a model of the storage service they call.

    JavaScript numbers that the code only copies (macro values, goals) are
    integers [Z]; time values are integers of milliseconds since the epoch.
    The handlers are [async] functions; following the single-threaded,
    run-to-completion scheduling of the application they are embedded as
    sequential computations in a state-and-exception monad over one record
    holding the whole world: browser storage, the subscription registry,
    the React state, the console and the trace of service calls. *)

From Stdlib Require Import ZArith List String Bool Lia.
From stdpp Require Import base option list strings gmap pretty.

Local Open Scope string_scope.
Local Open Scope list_scope.
Local Open Scope Z_scope.

(** ** Data model *)

(** [FoodItem] of [./types]: what the caller of [handleAddFood] passes.
    [portion] is optional ([None] is JavaScript's [undefined]). *)
Module FoodItem.
Record t : Type := mk
  { name : string;
    portion : option string;
    calories : Z;
    protein : Z;
    carbs : Z;
    fat : Z }.
End FoodItem.

(** The values a [timestamp] read back from storage can hold: a number, or
    something that is not a number (legacy or partial data). *)
Inductive jsval : Type :=
  | JNumber (n : Z)
  | JString (s : string)
  | JUndefined.

(** JavaScript's [typeof]. *)
Definition typeof (v : jsval) : string :=
  match v with
  | JNumber _ => "number"
  | JString _ => "string"
  | JUndefined => "undefined"
  end.

(** [LogEntry] of [./services/localStorageService]. *)
Module LogEntry.
Record t : Type := mk
  { id : string;
    name : string;
    portion : string;
    calories : Z;
    protein : Z;
    carbs : Z;
    fat : Z;
    timestamp : jsval }.
End LogEntry.

(** [MacroGoals] of [./types]. *)
Module MacroGoals.
Record t : Type := mk
  { calories : Z;
    protein : Z;
    carbs : Z;
    fat : Z }.

(** [keyof MacroGoals]. *)
Inductive key : Type := Calories | Protein | Carbs | Fat.

Definition get (k : key) (g : t) : Z :=
  match k with
  | Calories => calories g
  | Protein => protein g
  | Carbs => carbs g
  | Fat => fat g
  end.

(** The object spread [{ ...g, [k]: v }]. *)
Definition set (k : key) (v : Z) (g : t) : t :=
  match k with
  | Calories => mk v (protein g) (carbs g) (fat g)
  | Protein => mk (calories g) v (carbs g) (fat g)
  | Carbs => mk (calories g) (protein g) v (fat g)
  | Fat => mk (calories g) (protein g) (carbs g) v
  end.
End MacroGoals.

(** A profile attribute: the goals, or any other stored field. *)
Inductive attr : Type :=
  | AGoals (g : MacroGoals.t)
  | AText (s : string)
  | ANumber (n : Z).

(** A stored profile: the user id and an extensible set of attributes.
    A partial profile, as passed to [updateUserProfile], is an attribute
    set on its own. *)
Record UserProfile : Type := mkProfile
  { userId : string;
    attrs : gmap string attr }.

(** ** Dates *)

(** A JavaScript [Date]: its time value in milliseconds since the epoch,
    or [None] for an invalid date. *)
Definition Date : Type := option Z.

Definition maxTimeValue : Z := 8640000000000000.

(** [new Date(ts)] for a number [ts]: time values out of range give an
    invalid date. *)
Definition newDate (ts : Z) : Date :=
  if (Z.abs ts <=? maxTimeValue) then Some ts else None.

Definition msPerDay : Z := 86400000.

(** Number of days from 1970-01-01 to the civil date [y]-[m]-[d] of the
    proleptic Gregorian calendar. *)
Definition daysFromCivil (y m d : Z) : Z :=
  let y' := if m <=? 2 then y - 1 else y in
  let era := y' / 400 in
  let yoe := y' - era * 400 in
  let mp := (m + 9) mod 12 in
  let doy := (153 * mp + 2) / 5 + d - 1 in
  let doe := yoe * 365 + yoe / 4 - yoe / 100 + doy in
  era * 146097 + doe - 719468.

(** ** The environment

    What the program reads from outside: the clock ([Date.now()]), the
    random source ([Math.random().toString(36)]), whether each storage
    operation succeeds, and the local time zone. The clock, the random
    source and the storage outcomes are indexed by the number of reads
    made so far. *)
Record Env : Type := mkEnv
  { now_at : nat -> Z;
    random36_at : nat -> string;
    io_ok : nat -> bool;
    utcOffsetMs : Z }.

(** The day, counted from the epoch, on which the instant [t] falls in the
    local time zone. *)
Definition localDay (env : Env) (t : Z) : Z :=
  (t + utcOffsetMs env) / msPerDay.

(** The instant at which the local wall clock shows [y]-[m]-[d]T[hh]:[mi],
    as [new Date("2024-06-01T23:59")] computes it. *)
Definition localDateTime (env : Env) (y m d hh mi : Z) : Z :=
  daysFromCivil y m d * msPerDay + hh * 3600000 + mi * 60000 - utcOffsetMs env.

(** Modelled from the spec: [isSameDay] of [./utils/dateUtils], which is
    not among the sources. Two dates are on the same day when both are
    valid and fall within the same calendar day of the local time zone. *)
Definition isSameDay (env : Env) (a b : Date) : bool :=
  match a, b with
  | Some x, Some y => localDay env x =? localDay env y
  | _, _ => false
  end.

(** ** The world *)

(** Persisted state: two durable collections keyed by user id, an ordered
    list of entries and one profile record. [localStorage.clear()] empties
    both. *)
Record Storage : Type := mkStorage
  { logs : gmap string (list LogEntry.t);
    profiles : gmap string UserProfile }.

Definition emptyStorage : Storage := mkStorage ∅ ∅.

(** The React state of [App] (the [useState] cells the handlers touch) and
    its [unsubRef]. *)
Record AppState : Type := mkApp
  { userInitialized : bool;
    selectedDate : Date;
    loggedFoods : list LogEntry.t;
    goals : MacroGoals.t;
    showQuizModal : bool;
    error : option string;
    unsubRef : option nat }.

(** One registration of the subscription registry. The callback is a
    transformer of the subscriber's state; the handle identifies the
    registration for [unsubscribe]. *)
Record Subscription : Type := mkSub
  { handle : nat;
    owner : string;
    callback : list LogEntry.t -> AppState -> AppState }.

Record Bus : Type := mkBus
  { registry : list Subscription;
    nextHandle : nat;
    delivered : list (nat * list LogEntry.t) }.

Definition emptyBus : Bus := mkBus [] 0%nat [].

Inductive exn : Type := PersistenceError.

(** A storage operation issued to the service. *)
Inductive call : Type :=
  | CAdd (u : string) (e : LogEntry.t)
  | CDelete (u : string) (entryId : string)
  | CGetProfile (u : string)
  | CUpdateProfile (u : string) (partial : gmap string attr).

Record World : Type := mkWorld
  { storage : Storage;
    bus : Bus;
    app : AppState;
    console : list (string * exn);
    calls : list call;
    ticks : nat;
    draws : nat }.

Definition withStorage (f : Storage -> Storage) (w : World) : World :=
  mkWorld (f (storage w)) (bus w) (app w) (console w) (calls w) (ticks w) (draws w).
Definition withBus (f : Bus -> Bus) (w : World) : World :=
  mkWorld (storage w) (f (bus w)) (app w) (console w) (calls w) (ticks w) (draws w).
Definition withApp (f : AppState -> AppState) (w : World) : World :=
  mkWorld (storage w) (bus w) (f (app w)) (console w) (calls w) (ticks w) (draws w).
Definition withConsole (f : list (string * exn) -> list (string * exn)) (w : World) : World :=
  mkWorld (storage w) (bus w) (app w) (f (console w)) (calls w) (ticks w) (draws w).
Definition withCalls (f : list call -> list call) (w : World) : World :=
  mkWorld (storage w) (bus w) (app w) (console w) (f (calls w)) (ticks w) (draws w).
Definition withTicks (f : nat -> nat) (w : World) : World :=
  mkWorld (storage w) (bus w) (app w) (console w) (calls w) (f (ticks w)) (draws w).
Definition withDraws (f : nat -> nat) (w : World) : World :=
  mkWorld (storage w) (bus w) (app w) (console w) (calls w) (ticks w) (f (draws w)).

(** ** The monad of handlers: state and exceptions *)

Inductive outcome (A : Type) : Type :=
  | Returned (a : A)
  | Thrown (e : exn).
Arguments Returned {A} a.
Arguments Thrown {A} e.

Definition M (A : Type) : Type := World -> outcome A * World.

Definition ret {A} (a : A) : M A := fun w => (Returned a, w).

Definition bind {A B} (m : M A) (k : A -> M B) : M B :=
  fun w =>
    match m w with
    | (Returned a, w') => k a w'
    | (Thrown e, w') => (Thrown e, w')
    end.

Definition throw {A} (e : exn) : M A := fun w => (Thrown e, w).

(** [try { m } catch (e) { h e }]. *)
Definition tryCatch {A} (m : M A) (h : exn -> M A) : M A :=
  fun w =>
    match m w with
    | (Returned a, w') => (Returned a, w')
    | (Thrown e, w') => h e w'
    end.

Definition modify (f : World -> World) : M unit := fun w => (Returned tt, f w).
Definition gets {A} (f : World -> A) : M A := fun w => (Returned (f w), w).

Declare Scope handler_scope.
Delimit Scope handler_scope with handler.
Notation "'let*' x ':=' m 'in' k" := (bind m (fun x => k))
  (at level 10, x name, m at level 100, k at level 200) : handler_scope.
Notation "m1 ';;' m2" := (bind m1 (fun _ => m2))
  (at level 100, m2 at level 200, right associativity) : handler_scope.
Local Open Scope handler_scope.

(** The state after running a handler, and how it completed. *)
Definition exec {A} (m : M A) (w : World) : World := snd (m w).
Definition result {A} (m : M A) (w : World) : outcome A := fst (m w).

Section Program.

Variable env : Env.

(** [Date.now()]. *)
Definition dateNow : M Z :=
  fun w => (Returned (now_at env (ticks w)), withTicks S w).

(** [Math.random().toString(36)]. *)
Definition mathRandom36 : M string :=
  fun w => (Returned (random36_at env (draws w)), withDraws S w).

(** [console.error(msg, e)]. *)
Definition consoleError (msg : string) (e : exn) : M unit :=
  modify (withConsole (fun c => c ++ [(msg, e)])).

(** ** The storage service ([./services/localStorageService])

    The service is not among the sources; each operation below is
    modelled from the design of the entry store, the profile store and
    the notification bus. *)

(** The user's entries in insertion order; a user without a collection has
    the empty list. *)
Definition listEntries (u : string) (s : Storage) : list LogEntry.t :=
  default [] (logs s !! u).

(** Every operation on durable storage is recorded in the trace of calls
    and either goes through or fails with [PersistenceError], as the
    environment decides. *)
Definition storageOp (c : call) : M unit :=
  fun w =>
    let w' := withCalls (fun cs => cs ++ [c]) w in
    if io_ok env (length (calls w)) then (Returned tt, w')
    else (Thrown PersistenceError, w').

(** One callback invocation: the subscriber's state is transformed and
    the delivery is recorded. *)
Definition deliver (snapshot : list LogEntry.t) (w : World) (s : Subscription) : World :=
  withBus (fun b => mkBus (registry b) (nextHandle b)
                      (delivered b ++ [(handle s, snapshot)]))
    (withApp (callback s snapshot) w).

Definition subscribedTo (u : string) (s : Subscription) : bool :=
  bool_decide (owner s = u).

(** Modelled from the spec: the mutation hook of the notification bus. It
    re-reads the user's list and invokes every callback registered for
    that user, in subscription order. *)
Definition notify (u : string) : M unit :=
  fun w =>
    let snapshot := listEntries u (storage w) in
    (Returned tt,
     fold_left (deliver snapshot) (List.filter (subscribedTo u) (registry (bus w))) w).

(** Modelled from the spec: [addLogEntry] appends the entry to the user's
    collection, fails with [PersistenceError] when the write fails, and on
    success triggers a refresh for the user. *)
Definition addLogEntry (u : string) (e : LogEntry.t) : M unit :=
  storageOp (CAdd u e) ;;
  modify (withStorage (fun s =>
    mkStorage (<[u := listEntries u s ++ [e]]> (logs s)) (profiles s))) ;;
  notify u.

(** Modelled from the spec: [deleteLogEntry] deletes the entry with the
    given id if present (a missing id is not an error) and on success
    triggers a refresh. *)
Definition deleteLogEntry (u : string) (entryId : string) : M unit :=
  storageOp (CDelete u entryId) ;;
  modify (withStorage (fun s =>
    mkStorage
      (alter (List.filter (fun e => negb (String.eqb (LogEntry.id e) entryId))) u (logs s))
      (profiles s))) ;;
  notify u.

(** Modelled from the spec: [subscribeToLogEntries] registers the callback
    for the user, immediately pushes the current snapshot to it, and
    returns the unsubscribe handle. *)
Definition subscribeToLogEntries (u : string)
    (cb : list LogEntry.t -> AppState -> AppState) : M nat :=
  fun w =>
    let h := nextHandle (bus w) in
    let s := mkSub h u cb in
    let w1 := withBus (fun b => mkBus (registry b ++ [s]) (S h) (delivered b)) w in
    (Returned h, deliver (listEntries u (storage w1)) w1 s).

(** Modelled from the spec: invoking the unsubscribe handle removes its
    registration; when the registration is already gone nothing happens. *)
Definition unsubscribe (h : nat) : M unit :=
  modify (withBus (fun b =>
    mkBus (List.filter (fun s => negb (Nat.eqb (handle s) h)) (registry b))
      (nextHandle b) (delivered b))).

(** Modelled from the spec: [getUserProfile] returns the stored profile or
    the not-found outcome ([None]), which is a result and not an error. *)
Definition getUserProfile (u : string) : M (option UserProfile) :=
  storageOp (CGetProfile u) ;;
  gets (fun w => profiles (storage w) !! u).

(** The goals every new profile and the application start from. *)
Definition defaultGoals : MacroGoals.t := MacroGoals.mk 2000 150 250 65.

Definition defaultProfile (u : string) : UserProfile :=
  mkProfile u {[ "macroGoals" := AGoals defaultGoals ]}.

(** The field-level merge of a partial attribute set into a profile: the
    fields of [partial] win, every other field is kept. *)
Definition mergeProfile (partial : gmap string attr) (p : UserProfile) : UserProfile :=
  mkProfile (userId p) (partial ∪ attrs p).

(** Modelled from the spec: [updateUserProfile] merges the partial
    attributes into the existing profile, creating one with defaults if
    absent, and fails with [PersistenceError] when the write fails. *)
Definition updateUserProfile (u : string) (partial : gmap string attr) : M unit :=
  storageOp (CUpdateProfile u partial) ;;
  modify (withStorage (fun s =>
    let existing := default (defaultProfile u) (profiles s !! u) in
    mkStorage (logs s) (<[u := mergeProfile partial existing]> (profiles s)))).

(** ** The [App] component ([src/App.tsx]) *)

Definition STORAGE_USER_ID : string := "local-user".

(** The initial values of the [useState] cells; [selectedDate] starts at
    [new Date()]. *)
Definition initialApp (today : Date) : AppState :=
  mkApp false today [] (MacroGoals.mk 2000 150 250 65) false None None.

Definition setUserInitialized (b : bool) : M unit :=
  modify (withApp (fun a =>
    mkApp b (selectedDate a) (loggedFoods a) (goals a) (showQuizModal a) (error a) (unsubRef a))).

Definition setLoggedFoodsIn (f : list LogEntry.t -> list LogEntry.t) (a : AppState) : AppState :=
  mkApp (userInitialized a) (selectedDate a) (f (loggedFoods a)) (goals a)
    (showQuizModal a) (error a) (unsubRef a).

Definition setLoggedFoods (f : list LogEntry.t -> list LogEntry.t) : M unit :=
  modify (withApp (setLoggedFoodsIn f)).

Definition setGoals (g : MacroGoals.t) : M unit :=
  modify (withApp (fun a =>
    mkApp (userInitialized a) (selectedDate a) (loggedFoods a) g (showQuizModal a) (error a) (unsubRef a))).

Definition setShowQuizModal (b : bool) : M unit :=
  modify (withApp (fun a =>
    mkApp (userInitialized a) (selectedDate a) (loggedFoods a) (goals a) b (error a) (unsubRef a))).

Definition setError (e : option string) : M unit :=
  modify (withApp (fun a =>
    mkApp (userInitialized a) (selectedDate a) (loggedFoods a) (goals a) (showQuizModal a) e (unsubRef a))).

Definition setUnsubRef (h : option nat) : M unit :=
  modify (withApp (fun a =>
    mkApp (userInitialized a) (selectedDate a) (loggedFoods a) (goals a) (showQuizModal a) (error a) h)).

(** The truthy [macroGoals] field of a profile, if any. *)
Definition macroGoalsOf (p : UserProfile) : option MacroGoals.t :=
  match attrs p !! "macroGoals" with
  | Some (AGoals g) => Some g
  | _ => None
  end.

(** First effect: [initializeUser]. *)
Definition initializeUser : M unit :=
  tryCatch
    (let* profile := getUserProfile STORAGE_USER_ID in
     match profile with
     | None => setShowQuizModal true
     | Some p =>
         match macroGoalsOf p with
         | Some g => setGoals g
         | None => ret tt
         end
     end)
    (fun e =>
       consoleError "Failed to initialize user" e ;;
       setError (Some "Failed to initialize user profile.")) ;;
  setUserInitialized true.

(** Third effect: [loadUserProfile]. *)
Definition loadUserProfile : M unit :=
  tryCatch
    (let* profile := getUserProfile STORAGE_USER_ID in
     match profile ≫= macroGoalsOf with
     | Some g => setGoals g
     | None => ret tt
     end)
    (fun e =>
       consoleError "Failed to load user profile" e ;;
       setError (Some "Failed to load user profile. Using local data.")).

(** Fourth effect, run after every change of [goals]: [saveGoals]. *)
Definition saveGoals : M unit :=
  tryCatch
    (let* g := gets (fun w => goals (app w)) in
     updateUserProfile STORAGE_USER_ID {[ "macroGoals" := AGoals g ]})
    (fun e =>
       consoleError "Failed to save goals" e ;;
       setError (Some "Failed to save goals.")).

(** Fifth effect: the subscription, and its cleanup. *)
Definition subscribeEffect : M unit :=
  let* h := subscribeToLogEntries STORAGE_USER_ID
              (fun entries => setLoggedFoodsIn (fun _ => entries)) in
  setUnsubRef (Some h).

Definition subscribeCleanup : M unit :=
  let* r := gets (fun w => unsubRef (app w)) in
  match r with
  | Some h => unsubscribe h
  | None => ret tt
  end.

(** [x || d] on an optional string: [undefined] and the empty string are
    falsy. *)
Definition orElse (x : option string) (d : string) : string :=
  match x with
  | None => d
  | Some "" => d
  | Some s => s
  end.

(** The object literal of [handleAddFood]: [t1] and [t2] are the two
    readings of [Date.now()] and [r] is [Math.random().toString(36)]. *)
Definition makeEntry (food : FoodItem.t) (t1 : Z) (r : string) (t2 : Z) : LogEntry.t :=
  LogEntry.mk
    (pretty t1 +:+ substring 2 9 r)
    (FoodItem.name food)
    (orElse (FoodItem.portion food) "1 serving")
    (FoodItem.calories food)
    (FoodItem.protein food)
    (FoodItem.carbs food)
    (FoodItem.fat food)
    (JNumber t2).

(** The [for (const food of foods)] loop; [newEntries] is the array it
    pushes to. *)
Fixpoint addLoop (foods : list FoodItem.t) (newEntries : list LogEntry.t)
    : M (list LogEntry.t) :=
  match foods with
  | [] => ret newEntries
  | food :: rest =>
      let* t1 := dateNow in
      let* r := mathRandom36 in
      let* t2 := dateNow in
      let entry := makeEntry food t1 r t2 in
      let newEntries' := newEntries ++ [entry] in
      addLogEntry STORAGE_USER_ID entry ;;
      addLoop rest newEntries'
  end.

(** [handleAddFood]; the argument is [None] when the caller passes
    [undefined] or [null]. *)
Definition handleAddFood (foods : option (list FoodItem.t)) : M unit :=
  match foods with
  | None => ret tt
  | Some [] => ret tt
  | Some fs =>
      tryCatch
        (let* newEntries := addLoop fs [] in
         setLoggedFoods (fun prev => prev ++ newEntries))
        (fun e =>
           consoleError "Failed to add food logs:" e ;;
           setError (Some "Failed to add some items. Check storage and retry."))
  end.

Definition handleRemoveFood (entryId : string) : M unit :=
  tryCatch
    (deleteLogEntry STORAGE_USER_ID entryId)
    (fun e =>
       consoleError "Failed to remove food log" e ;;
       setError (Some "Failed to remove food log.")).

(** The error banner: rendered when [error] is truthy; its button calls
    [setError(null)]. *)
Definition errorBanner (a : AppState) : option string :=
  match error a with
  | None => None
  | Some "" => None
  | Some msg => Some msg
  end.

Definition dismissError : M unit := setError None.

(** The predicate of the three [loggedFoods.filter] calls:
    [typeof ts === "number" ? isSameDay(new Date(ts), selectedDate) : true]. *)
Definition onSelectedDay (selected : Date) (item : LogEntry.t) : bool :=
  let ts := LogEntry.timestamp item in
  match ts with
  | JNumber n => isSameDay env (newDate n) selected
  | _ => true
  end.

(** The list handed to [MacroTracker] in the calendar section. *)
Definition macroTrackerFoods (a : AppState) : list LogEntry.t :=
  List.filter (onSelectedDay (selectedDate a)) (loggedFoods a).

(** The list rendered under "Food Log". *)
Definition foodLogItems (a : AppState) : list LogEntry.t :=
  List.filter (onSelectedDay (selectedDate a)) (loggedFoods a).

(** ** The [Profile] component *)

(** [handleGoalChange], with the component's [goals] and [onGoalsChange]
    props. *)
Definition handleGoalChange (goals : MacroGoals.t) (onGoalsChange : MacroGoals.t -> M unit)
    (key : MacroGoals.key) (value : Z) : M unit :=
  let updatedGoals := MacroGoals.set key value goals in
  onGoalsChange updatedGoals.

(** [localStorage.clear()]. *)
Definition localStorageClear : M unit :=
  modify (withStorage (fun _ => emptyStorage)).

(** [window.location.reload()]: everything held in memory is dropped, the
    registry is empty again and [App] starts from its initial state. The
    effects of the fresh mount run afterwards, as computations of their
    own. *)
Definition windowLocationReload : M unit :=
  let* t := dateNow in
  modify (fun w =>
    withApp (fun _ => initialApp (newDate t))
      (withBus (fun b => mkBus [] 0%nat (delivered b)) w)).

(** [handleClearData]; [confirmed] is the answer to the [confirm] dialog. *)
Definition handleClearData (confirmed : bool) : M unit :=
  if confirmed then
    localStorageClear ;;
    windowLocationReload
  else ret tt.

(** [Profile] as [App] renders it: [goals={goals} onGoalsChange={setGoals}]. *)
Definition profileGoalChange (key : MacroGoals.key) (value : Z) : M unit :=
  let* g := gets (fun w => goals (app w)) in
  handleGoalChange g setGoals key value.

(** ** The rest of [App]: the quiz, the modal, the navigation, the render *)

(** The callback [App] registers with [subscribeToLogEntries]. *)
Definition appCallback : list LogEntry.t -> AppState -> AppState :=
  fun entries => setLoggedFoodsIn (fun _ => entries).

(** [onComplete] of the quiz modal: [setGoals(newGoals); setShowQuizModal(false)]. *)
Definition quizComplete (newGoals : MacroGoals.t) : M unit :=
  setGoals newGoals ;;
  setShowQuizModal false.

(** [onClose] of the quiz modal. *)
Definition quizClose : M unit := setShowQuizModal false.

(** [type ModalTab = "camera" | "upload" | "search"]. *)
Inductive ModalTab : Type := Camera | Upload | Search.

(** The values of [activeSection]. *)
Inductive NavSection : Type :=
  | MainSection
  | InsightsSection
  | CalendarSection
  | ProfileSection.

Record ModalConfig : Type := mkModal
  { isOpen : bool;
    initialTab : ModalTab }.

(** The [useState] cells of [App] that only the navigation and the modal
    handlers touch. *)
Record UiState : Type := mkUi
  { modalConfig : ModalConfig;
    activeSection : NavSection }.

Definition initialUi : UiState := mkUi (mkModal false Camera) MainSection.

Definition handleOpenModal (tab : ModalTab) (ui : UiState) : UiState :=
  mkUi (mkModal true tab) (activeSection ui).

Definition handleCloseModal (ui : UiState) : UiState :=
  mkUi (mkModal false Camera) (activeSection ui).

Definition handleNavChange (section : NavSection) (ui : UiState) : UiState :=
  mkUi (modalConfig ui) section.

(** What [App] returns: the elements it renders, in document order, each
    with the props [App] passes to it. *)
Inductive Element : Type :=
  | ErrorNotice (msg : string)
  | LogFoodActionsEl
  | InsightsEl (foods : list LogEntry.t) (g : MacroGoals.t)
  | CalendarViewEl (selected : Date) (foods : list LogEntry.t)
  | MacroTrackerEl (foods : list LogEntry.t) (g : MacroGoals.t)
  | FoodLogRows (items : list LogEntry.t)
  | FoodLogEmpty (msg : string)
  | ProfileEl (currentUserId : string) (isAnonymousUser : bool) (g : MacroGoals.t)
  | LogFoodModalEl (tab : ModalTab)
  | UserQuizModalEl
  | BottomNavEl (active : NavSection).

Definition isSection (s t : NavSection) : bool :=
  match s, t with
  | MainSection, MainSection => true
  | InsightsSection, InsightsSection => true
  | CalendarSection, CalendarSection => true
  | ProfileSection, ProfileSection => true
  | _, _ => false
  end.

(** [cond && element]. *)
Definition renderIf (cond : bool) (els : list Element) : list Element :=
  if cond then els else [].

(** The "Food Log" card: the rows when the filtered list is not empty, the
    placeholder text otherwise. *)
Definition foodLogCard (a : AppState) : Element :=
  if (0 <? length (foodLogItems a))%nat then FoodLogRows (foodLogItems a)
  else FoodLogEmpty "No food logged for this day.".

Definition render (a : AppState) (ui : UiState) : list Element :=
  match errorBanner a with
  | Some msg => [ErrorNotice msg]
  | None => []
  end
  ++ renderIf (isSection (activeSection ui) MainSection) [LogFoodActionsEl]
  ++ renderIf (isSection (activeSection ui) InsightsSection)
       [InsightsEl (loggedFoods a) (goals a)]
  ++ renderIf (isSection (activeSection ui) CalendarSection)
       [CalendarViewEl (selectedDate a) (loggedFoods a);
        MacroTrackerEl (macroTrackerFoods a) (goals a);
        foodLogCard a]
  ++ renderIf (isSection (activeSection ui) ProfileSection)
       [ProfileEl STORAGE_USER_ID false (goals a)]
  ++ renderIf (isSection (activeSection ui) MainSection
               || isSection (activeSection ui) InsightsSection)
       [MacroTrackerEl (loggedFoods a) (goals a)]
  ++ renderIf (isOpen (modalConfig ui)) [LogFoodModalEl (initialTab (modalConfig ui))]
  ++ renderIf (showQuizModal a) [UserQuizModalEl]
  ++ renderIf (negb (isOpen (modalConfig ui)) && negb (showQuizModal a))
       [BottomNavEl (activeSection ui)].

(** The entries the loop of [handleAddFood] builds for [foods] when the
    clock has been read [tick] times and the random source [draw] times. *)
Fixpoint batchEntries (tick draw : nat) (foods : list FoodItem.t) : list LogEntry.t :=
  match foods with
  | [] => []
  | food :: rest =>
      makeEntry food (now_at env tick) (random36_at env draw) (now_at env (S tick))
        :: batchEntries (S (S tick)) (S draw) rest
  end.

(** What the next notification for [u] carries. *)
Definition nextDeliveries (u : string) (w : World) : list (nat * list LogEntry.t) :=
  map (fun s => (handle s, listEntries u (storage w)))
    (List.filter (subscribedTo u) (registry (bus w))).

(** *** Frame properties of the notification bus *)

Lemma deliver_fold_frame snapshot subs w :
  let w' := fold_left (deliver snapshot) subs w in
  storage w' = storage w /\ calls w' = calls w /\ console w' = console w /\
  ticks w' = ticks w /\ draws w' = draws w /\
  registry (bus w') = registry (bus w) /\ nextHandle (bus w') = nextHandle (bus w) /\
  delivered (bus w') = delivered (bus w) ++ map (fun s => (handle s, snapshot)) subs.
Proof.
  revert w. induction subs as [|s subs IH]; intros w; cbn.
  - rewrite app_nil_r. repeat split; reflexivity.
  - specialize (IH (deliver snapshot w s)). cbn in IH.
    destruct IH as (Hs & Hc & Hk & Ht & Hd & Hr & Hn & Hl).
    rewrite Hs, Hc, Hk, Ht, Hd, Hr, Hn, Hl. cbn.
    rewrite <- app_assoc. repeat split; reflexivity.
Qed.

Lemma notify_returns u w : result (notify u) w = Returned tt.
Proof. reflexivity. Qed.

Lemma notify_frame u w :
  let w' := exec (notify u) w in
  storage w' = storage w /\ calls w' = calls w /\ console w' = console w /\
  ticks w' = ticks w /\ draws w' = draws w /\
  registry (bus w') = registry (bus w) /\ nextHandle (bus w') = nextHandle (bus w) /\
  delivered (bus w') = delivered (bus w) ++ nextDeliveries u w.
Proof. unfold exec, notify, nextDeliveries. cbn. apply deliver_fold_frame. Qed.

(** *** One call of [addLogEntry] *)

Definition appended (u : string) (e : LogEntry.t) (s : Storage) : Storage :=
  mkStorage (<[u := listEntries u s ++ [e]]> (logs s)) (profiles s).

Lemma addLogEntry_fails u e w :
  io_ok env (length (calls w)) = false ->
  addLogEntry u e w = (Thrown PersistenceError, withCalls (fun cs => cs ++ [CAdd u e]) w).
Proof.
  intros H. unfold addLogEntry, bind, storageOp. rewrite H. reflexivity.
Qed.

Lemma addLogEntry_succeeds u e w :
  io_ok env (length (calls w)) = true ->
  addLogEntry u e w =
    (Returned tt,
     exec (notify u) (withStorage (appended u e) (withCalls (fun cs => cs ++ [CAdd u e]) w))).
Proof.
  intros H. unfold addLogEntry, bind, storageOp. rewrite H. reflexivity.
Qed.

Lemma listEntries_appended u e s :
  listEntries u (appended u e s) = listEntries u s ++ [e].
Proof. unfold listEntries at 1, appended. cbn. by rewrite lookup_insert_eq. Qed.

Lemma logs_appended_other u v e s :
  u <> v -> logs (appended u e s) !! v = logs s !! v.
Proof. intros H. unfold appended. cbn. by rewrite lookup_insert_ne. Qed.

(** *** The loop of [handleAddFood] *)

(** The entry built for [food] in world [w], and the world in which the
    loop hands it to [addLogEntry]. *)
Definition entryAt (w : World) (food : FoodItem.t) : LogEntry.t :=
  makeEntry food (now_at env (ticks w)) (random36_at env (draws w)) (now_at env (S (ticks w))).

Definition afterReads (w : World) : World :=
  withTicks S (withDraws S (withTicks S w)).

(** How a world [w'] reached by the loop relates to the world [w] it
    started from: [stored] are the entries durably appended and
    [attempted] the entries handed to [addLogEntry]. *)
Record afterAdds (w : World) (stored attempted : list LogEntry.t) (w' : World) : Prop :=
  { adds_list :
      listEntries STORAGE_USER_ID (storage w')
      = listEntries STORAGE_USER_ID (storage w) ++ stored;
    adds_others :
      forall u, u <> STORAGE_USER_ID -> logs (storage w') !! u = logs (storage w) !! u;
    adds_profiles : profiles (storage w') = profiles (storage w);
    adds_calls : calls w' = calls w ++ map (CAdd STORAGE_USER_ID) attempted;
    adds_console : console w' = console w;
    adds_registry : registry (bus w') = registry (bus w);
    adds_ticks : ticks w' = (ticks w + 2 * length attempted)%nat;
    adds_draws : draws w' = (draws w + length attempted)%nat }.

Lemma afterAdds_refl w : afterAdds w [] [] w.
Proof.
  split; cbn; rewrite ?app_nil_r; auto; lia.
Qed.

Lemma addLoop_cons food rest acc w :
  addLoop (food :: rest) acc w =
    match addLogEntry STORAGE_USER_ID (entryAt w food) (afterReads w) with
    | (Returned _, w1) => addLoop rest (acc ++ [entryAt w food]) w1
    | (Thrown e, w1) => (Thrown e, w1)
    end.
Proof. reflexivity. Qed.

Lemma afterAdds_one_stored food w :
  afterAdds w [entryAt w food] [entryAt w food]
    (exec (notify STORAGE_USER_ID)
       (withStorage (appended STORAGE_USER_ID (entryAt w food))
          (withCalls (fun cs => cs ++ [CAdd STORAGE_USER_ID (entryAt w food)]) (afterReads w)))).
Proof.
  match goal with |- afterAdds _ _ _ (exec _ ?x) => pose proof (notify_frame STORAGE_USER_ID x) as F end.
  cbn zeta in F. destruct F as (Hs & Hc & Hk & Ht & Hd & Hr & _ & _).
  split; rewrite ?Hs, ?Hc, ?Hk, ?Ht, ?Hd, ?Hr; cbn.
  - apply listEntries_appended.
  - intros u Hu. by rewrite lookup_insert_ne.
  - reflexivity.
  - reflexivity.
  - reflexivity.
  - reflexivity.
  - lia.
  - lia.
Qed.

Lemma afterAdds_one_failed food w :
  afterAdds w [] [entryAt w food]
    (withCalls (fun cs => cs ++ [CAdd STORAGE_USER_ID (entryAt w food)]) (afterReads w)).
Proof.
  split; cbn; rewrite ?app_nil_r; auto; lia.
Qed.

(** Composition: a stored entry followed by a further run of the loop. *)
Lemma afterAdds_cons w e w1 stored attempted w' :
  afterAdds w [e] [e] w1 ->
  afterAdds w1 stored attempted w' ->
  afterAdds w (e :: stored) (e :: attempted) w'.
Proof.
  intros A B. split.
  - rewrite (adds_list _ _ _ _ B), (adds_list _ _ _ _ A), <- app_assoc. reflexivity.
  - intros u Hu. rewrite (adds_others _ _ _ _ B u Hu). apply (adds_others _ _ _ _ A u Hu).
  - rewrite (adds_profiles _ _ _ _ B). apply (adds_profiles _ _ _ _ A).
  - rewrite (adds_calls _ _ _ _ B), (adds_calls _ _ _ _ A), <- app_assoc. reflexivity.
  - rewrite (adds_console _ _ _ _ B). apply (adds_console _ _ _ _ A).
  - rewrite (adds_registry _ _ _ _ B). apply (adds_registry _ _ _ _ A).
  - rewrite (adds_ticks _ _ _ _ B), (adds_ticks _ _ _ _ A). cbn. lia.
  - rewrite (adds_draws _ _ _ _ B), (adds_draws _ _ _ _ A). cbn. lia.
Qed.

(** Every write succeeds: the loop returns the entries of the whole batch,
    all of them stored. *)
Lemma addLoop_success foods :
  forall acc w,
    (forall i, (i < length foods)%nat -> io_ok env (length (calls w) + i) = true) ->
    exists w',
      addLoop foods acc w
        = (Returned (acc ++ batchEntries (ticks w) (draws w) foods), w') /\
      afterAdds w (batchEntries (ticks w) (draws w) foods)
        (batchEntries (ticks w) (draws w) foods) w'.
Proof.
  induction foods as [|food rest IH]; intros acc w Hok.
  - exists w. cbn. rewrite app_nil_r. split; [reflexivity | apply afterAdds_refl].
  - rewrite addLoop_cons, addLogEntry_succeeds.
    2:{ cbn. rewrite <- (Hok 0%nat); [f_equal; lia | cbn; lia]. }
    pose proof (afterAdds_one_stored food w) as A.
    set (w1 := exec _ _) in *.
    destruct (IH (acc ++ [entryAt w food]) w1) as (w' & E & B).
    { intros i Hi. rewrite (adds_calls _ _ _ _ A), length_app. cbn.
      rewrite <- (Hok (S i)); [f_equal; lia | cbn; lia]. }
    exists w'. rewrite (adds_ticks _ _ _ _ A), (adds_draws _ _ _ _ A) in E, B.
    cbn [length Nat.mul Nat.add] in E, B.
    replace (ticks w + 2)%nat with (S (S (ticks w))) in E, B by lia.
    replace (draws w + 1)%nat with (S (draws w)) in E, B by lia.
    split.
    + rewrite E, <- app_assoc. reflexivity.
    + cbn [batchEntries]. eapply afterAdds_cons; eassumption.
Qed.

(** The write of the item after [pre] fails: the loop throws there, the
    entries of [pre] are stored, and nothing after the failing item is
    handed to the service. *)
Lemma addLoop_failure pre food post :
  forall acc w,
    (forall i, (i < length pre)%nat -> io_ok env (length (calls w) + i) = true) ->
    io_ok env (length (calls w) + length pre) = false ->
    exists w',
      addLoop (pre ++ food :: post) acc w = (Thrown PersistenceError, w') /\
      afterAdds w (batchEntries (ticks w) (draws w) pre)
        (batchEntries (ticks w) (draws w) (pre ++ [food])) w'.
Proof.
  induction pre as [|p pre IH]; intros acc w Hok Hfail.
  - rewrite app_nil_l. rewrite addLoop_cons, addLogEntry_fails.
    2:{ cbn. rewrite <- Hfail. f_equal. cbn. lia. }
    eexists. split; [reflexivity |]. apply afterAdds_one_failed.
  - rewrite <- app_comm_cons. rewrite addLoop_cons, addLogEntry_succeeds.
    2:{ cbn. rewrite <- (Hok 0%nat); [f_equal; lia | cbn; lia]. }
    pose proof (afterAdds_one_stored p w) as A.
    set (w1 := exec _ _) in *.
    destruct (IH (acc ++ [entryAt w p]) w1) as (w' & E & B).
    { intros i Hi. rewrite (adds_calls _ _ _ _ A), length_app. cbn.
      rewrite <- (Hok (S i)); [f_equal; lia | cbn; lia]. }
    { rewrite (adds_calls _ _ _ _ A), length_app. cbn.
      rewrite <- Hfail. f_equal. cbn. lia. }
    exists w'. rewrite (adds_ticks _ _ _ _ A), (adds_draws _ _ _ _ A) in B.
    cbn [length Nat.mul Nat.add] in B.
    replace (ticks w + 2)%nat with (S (S (ticks w))) in B by lia.
    replace (draws w + 1)%nat with (S (draws w)) in B by lia.
    split; [exact E |].
    rewrite <- app_comm_cons. cbn [batchEntries]. eapply afterAdds_cons; eassumption.
Qed.

(** Among the writes of a batch, either all succeed or there is a first
    one that fails. *)
Lemma first_failure {A} (foods : list A) :
  forall base : nat,
    (forall i, (i < length foods)%nat -> io_ok env (base + i) = true) \/
    (exists pre x post,
        foods = pre ++ x :: post /\
        (forall i, (i < length pre)%nat -> io_ok env (base + i) = true) /\
        io_ok env (base + length pre) = false).
Proof.
  induction foods as [|x rest IH]; intros base.
  - left. cbn. intros i Hi. lia.
  - destruct (io_ok env (base + 0)) eqn:E0.
    + destruct (IH (S base)) as [Hall | (pre & y & post & -> & Hpre & Hf)].
      * left. intros [|i] Hi; [exact E0 |].
        replace (base + S i)%nat with (S base + i)%nat by lia.
        apply Hall. cbn in Hi. lia.
      * right. exists (x :: pre), y, post. split; [reflexivity |]. split.
        -- intros [|i] Hi; [exact E0 |].
           replace (base + S i)%nat with (S base + i)%nat by lia.
           apply Hpre. cbn in Hi. lia.
        -- cbn [length]. replace (base + S (length pre))%nat
             with (S base + length pre)%nat by lia. exact Hf.
    + right. exists [], x, rest. split; [reflexivity |]. split.
      * cbn. intros i Hi. lia.
      * exact E0.
Qed.

(** *** [handleAddFood] as a whole *)

Definition addFailedMessage : string :=
  "Failed to add some items. Check storage and retry.".

Lemma handleAddFood_nonempty foods w :
  foods <> [] ->
  handleAddFood (Some foods) w =
    tryCatch
      (let* newEntries := addLoop foods [] in
       setLoggedFoods (fun prev => prev ++ newEntries))
      (fun e =>
         consoleError "Failed to add food logs:" e ;;
         setError (Some addFailedMessage)) w.
Proof. destruct foods; [congruence | reflexivity]. Qed.

Lemma handleAddFood_failure pre food post w :
  (forall i, (i < length pre)%nat -> io_ok env (length (calls w) + i) = true) ->
  io_ok env (length (calls w) + length pre) = false ->
  exists w1,
    afterAdds w (batchEntries (ticks w) (draws w) pre)
      (batchEntries (ticks w) (draws w) (pre ++ [food])) w1 /\
    handleAddFood (Some (pre ++ food :: post)) w =
      (Returned tt,
       exec (setError (Some addFailedMessage))
         (exec (consoleError "Failed to add food logs:" PersistenceError) w1)).
Proof.
  intros Hok Hfail.
  destruct (addLoop_failure pre food post [] w Hok Hfail) as (w1 & E & A).
  exists w1. split; [exact A |].
  rewrite handleAddFood_nonempty by (destruct pre; discriminate).
  unfold tryCatch, bind at 1. rewrite E. reflexivity.
Qed.

Lemma handleAddFood_success foods w :
  (forall i, (i < length foods)%nat -> io_ok env (length (calls w) + i) = true) ->
  exists w1,
    afterAdds w (batchEntries (ticks w) (draws w) foods)
      (batchEntries (ticks w) (draws w) foods) w1 /\
    handleAddFood (Some foods) w =
      (Returned tt,
       exec (setLoggedFoods (fun prev => prev ++ batchEntries (ticks w) (draws w) foods)) w1).
Proof.
  intros Hok. destruct foods as [|f rest].
  - exists w. split; [apply afterAdds_refl |]. cbn.
    unfold exec, setLoggedFoods, modify, withApp, setLoggedFoodsIn. cbn.
    rewrite app_nil_r. by destruct w as [? ? [] ? ? ? ?].
  - destruct (addLoop_success (f :: rest) [] w Hok) as (w1 & E & A).
    exists w1. split; [exact A |].
    rewrite handleAddFood_nonempty by discriminate.
    unfold tryCatch, bind at 1. rewrite E. reflexivity.
Qed.

(** *** What each created entry holds *)

(** The entry [e] was built from [food], with a clock reading not older
    than read number [tick] as its timestamp. *)
Definition createdFrom (tick : nat) (food : FoodItem.t) (e : LogEntry.t) : Prop :=
  LogEntry.portion e
    = match FoodItem.portion food with
      | Some p => if decide (p = "") then "1 serving" else p
      | None => "1 serving"
      end /\
  LogEntry.name e = FoodItem.name food /\
  LogEntry.calories e = FoodItem.calories food /\
  LogEntry.protein e = FoodItem.protein food /\
  LogEntry.carbs e = FoodItem.carbs food /\
  LogEntry.fat e = FoodItem.fat food /\
  exists n, (tick <= n)%nat /\ LogEntry.timestamp e = JNumber (now_at env n).

Lemma createdFrom_mono tick tick' food e :
  (tick <= tick')%nat -> createdFrom tick' food e -> createdFrom tick food e.
Proof.
  intros Hle (Hp & Hn & Hc & Hpr & Hcb & Hf & n & Hn' & Ht).
  repeat split; try assumption. exists n. split; [lia | exact Ht].
Qed.

Lemma orElse_spec (x : option string) (d : string) :
  orElse x d
    = match x with
      | Some p => if decide (p = "") then d else p
      | None => d
      end.
Proof.
  destruct x as [[|c s]|]; cbn; try reflexivity.
Qed.

Lemma batchEntries_createdFrom foods :
  forall tick draw, Forall2 (createdFrom tick) foods (batchEntries tick draw foods).
Proof.
  induction foods as [|food rest IH]; intros tick draw; cbn [batchEntries].
  - constructor.
  - constructor.
    + unfold createdFrom, makeEntry. cbn. rewrite orElse_spec.
      repeat split; try reflexivity. exists (S tick). split; [lia | reflexivity].
    + eapply Forall2_impl; [apply (IH (S (S tick)) (S draw)) |].
      intros f e. apply createdFrom_mono. lia.
Qed.

Lemma batchEntries_length foods :
  forall tick draw, length (batchEntries tick draw foods) = length foods.
Proof.
  induction foods as [|food rest IH]; intros tick draw; cbn; [reflexivity |].
  by rewrite IH.
Qed.

End Program.

(** * Sample inputs *)

(** A clock starting in the evening of 2024-06-01 (UTC+2), a constant
    random source, and a storage whose second operation fails. *)
Definition sampleEnv : Env :=
  mkEnv (fun n => 1717279140000 + Z.of_nat n) (fun _ => "0.k3x9q2m7ab4zz")
    (fun n => negb (Nat.eqb n 1)) 7200000.

(** The same environment with a storage that never fails. *)
Definition reliableEnv : Env :=
  mkEnv (now_at sampleEnv) (random36_at sampleEnv) (fun _ => true) (utcOffsetMs sampleEnv).

(** The same environment with a storage that always fails. *)
Definition brokenEnv : Env :=
  mkEnv (now_at sampleEnv) (random36_at sampleEnv) (fun _ => false) (utcOffsetMs sampleEnv).

Definition freshWorld : World :=
  mkWorld emptyStorage emptyBus (initialApp (Some 1717279140000)) [] [] 0%nat 0%nat.

Definition apple : FoodItem.t := FoodItem.mk "apple" (Some "1 medium") 95 0 25 0.
Definition bread : FoodItem.t := FoodItem.mk "bread" None 80 3 15 1.
Definition cheese : FoodItem.t := FoodItem.mk "cheese" (Some "") 110 7 1 9.

(** * Properties *)

(** ** Initial goals *)

(** C8. The goals with which [App] starts, before any stored profile is
    loaded, are the defaults: 2000 calories, 150 protein, 250 carbs and
    65 fat. *)
Theorem initial_goals_are_defaults (today : Date) :
  goals (initialApp today) = defaultGoals /\
  MacroGoals.calories (goals (initialApp today)) = 2000 /\
  MacroGoals.protein (goals (initialApp today)) = 150 /\
  MacroGoals.carbs (goals (initialApp today)) = 250 /\
  MacroGoals.fat (goals (initialApp today)) = 65.
Proof. repeat split. Qed.

(** ** The empty batch *)

(** C9. [handleAddFood] with a missing or an empty list does nothing: it
    returns, and the whole world (the storage, the trace of service calls,
    [loggedFoods], [error]) is as before. *)
Theorem handleAddFood_empty_noop (env : Env) (w : World) :
  handleAddFood env None w = (Returned tt, w) /\
  handleAddFood env (Some []) w = (Returned tt, w) /\
  (forall foods, foods = None \/ foods = Some [] ->
     let w' := exec (handleAddFood env foods) w in
     calls w' = calls w /\ storage w' = storage w /\
     loggedFoods (app w') = loggedFoods (app w) /\ error (app w') = error (app w)).
Proof.
  split; [reflexivity |]. split; [reflexivity |].
  intros foods [-> | ->]; cbn; repeat split.
Qed.

Lemma handleAddFood_empty_noop_witness :
  (@None (list FoodItem.t) = None \/ @None (list FoodItem.t) = Some []) /\
  calls (exec (handleAddFood sampleEnv None) freshWorld) = calls freshWorld.
Proof.
  split; [left; reflexivity |].
  apply (proj2 (proj2 (handleAddFood_empty_noop sampleEnv freshWorld)) None).
  left; reflexivity.
Defined.

(** ** Changing one goal *)

(** C10. [handleGoalChange key value] hands [onGoalsChange] a record whose
    [key] field is [value] and whose three other fields are those of the
    previous goals; with [App]'s [setGoals] as [onGoalsChange] that record
    becomes the [goals] state. *)
Theorem handleGoalChange_frame (w : World) (key : MacroGoals.key) (value : Z) :
  let g := goals (app w) in
  let g' := goals (app (exec (handleGoalChange g setGoals key value) w)) in
  g' = goals (app (exec (profileGoalChange key value) w)) /\
  MacroGoals.get key g' = value /\
  (forall other, other <> key -> MacroGoals.get other g' = MacroGoals.get other g).
Proof.
  cbn. split; [reflexivity |]. split.
  - destruct key; reflexivity.
  - intros other Hne. destruct key, other; try reflexivity; congruence.
Qed.

Lemma handleGoalChange_frame_witness :
  MacroGoals.Protein <> MacroGoals.Calories /\
  MacroGoals.get MacroGoals.Protein
    (goals (app (exec (handleGoalChange (goals (app freshWorld)) setGoals
                         MacroGoals.Calories 1800) freshWorld))) = 150.
Proof.
  split; [discriminate |].
  apply (proj2 (proj2 (handleGoalChange_frame freshWorld MacroGoals.Calories 1800))
           MacroGoals.Protein).
  discriminate.
Defined.

(** ** The entries of a batch *)

Lemma batchEntries_app (env : Env) (pre rest : list FoodItem.t) :
  forall tick draw,
    batchEntries env tick draw (pre ++ rest)
    = batchEntries env tick draw pre
        ++ batchEntries env (tick + 2 * length pre) (draw + length pre) rest.
Proof.
  induction pre as [|p pre IH]; intros tick draw.
  - cbn. by rewrite !Nat.add_0_r.
  - rewrite <- app_comm_cons. cbn [batchEntries length]. rewrite IH.
    rewrite <- app_comm_cons. do 3 f_equal; lia.
Qed.

(** The claim on portions as the data model words it: the supplied
    portion when there is one, ["1 serving"] otherwise. *)
Definition portionAsSupplied (food : FoodItem.t) (e : LogEntry.t) : Prop :=
  match FoodItem.portion food with
  | Some p => LogEntry.portion e = p
  | None => LogEntry.portion e = "1 serving"
  end.

(** C6, as stated, fails for a caller who supplies the empty string as
    portion: [food.portion || '1 serving'] takes the fallback, so the
    stored entry has portion ["1 serving"] and not the supplied [""]. *)
Lemma handleAddFood_empty_portion_counterexample :
  let w' := exec (handleAddFood reliableEnv (Some [cheese])) freshWorld in
  exists e,
    calls w' = [CAdd STORAGE_USER_ID e] /\
    listEntries STORAGE_USER_ID (storage w') = [e] /\
    FoodItem.portion cheese = Some "" /\
    LogEntry.portion e = "1 serving" /\
    ~ portionAsSupplied cheese e.
Proof.
  eexists. split; [vm_compute; reflexivity |].
  split; [vm_compute; reflexivity |].
  split; [reflexivity |].
  split; [reflexivity |].
  unfold portionAsSupplied. cbn. discriminate.
Qed.

(** C6, amended. The entries [handleAddFood] creates are the ones it hands
    to [addLogEntry], one per item in order up to the first failing write;
    those before the failing one are appended to the stored list. Each has
    the name, calories, protein, carbs and fat of its item, a clock reading
    taken during the call as timestamp, and as portion the item's portion
    when that is supplied and not the empty string, ["1 serving"] when it
    is missing or empty. *)
Theorem handleAddFood_entry_fields (env : Env) (w : World) (foods : list FoodItem.t) :
  let w' := exec (handleAddFood env (Some foods)) w in
  exists es stored,
    calls w' = calls w ++ map (CAdd STORAGE_USER_ID) es /\
    listEntries STORAGE_USER_ID (storage w')
      = listEntries STORAGE_USER_ID (storage w) ++ stored /\
    (stored = es \/ exists e, es = stored ++ [e]) /\
    Forall2 (createdFrom env (ticks w)) (firstn (length es) foods) es.
Proof.
  cbn zeta.
  destruct (first_failure env foods (length (calls w)))
    as [Hall | (pre & food & post & -> & Hpre & Hfail)].
  - destruct (handleAddFood_success env foods w Hall) as (w1 & A & E).
    exists (batchEntries env (ticks w) (draws w) foods),
           (batchEntries env (ticks w) (draws w) foods).
    unfold exec at 1 2. rewrite E. cbn.
    split; [apply (adds_calls _ _ _ _ A) |].
    split; [apply (adds_list _ _ _ _ A) |].
    split; [left; reflexivity |].
    rewrite batchEntries_length, firstn_all. apply batchEntries_createdFrom.
  - destruct (handleAddFood_failure env pre food post w Hpre Hfail) as (w1 & A & E).
    exists (batchEntries env (ticks w) (draws w) (pre ++ [food])),
           (batchEntries env (ticks w) (draws w) pre).
    unfold exec at 1 2. rewrite E. cbn.
    split; [apply (adds_calls _ _ _ _ A) |].
    split; [apply (adds_list _ _ _ _ A) |].
    split.
    + right. rewrite batchEntries_app. cbn. eauto.
    + rewrite batchEntries_length.
      replace (pre ++ food :: post) with ((pre ++ [food]) ++ post)
        by (rewrite <- app_assoc; reflexivity).
      rewrite firstn_app, firstn_all, Nat.sub_diag. cbn [firstn].
      rewrite app_nil_r. apply batchEntries_createdFrom.
Qed.

(** ** A batch with a failing write *)

(** An entry for [food] is in the list [l]. *)
Definition logged (food : FoodItem.t) (l : list LogEntry.t) : Prop :=
  exists e, In e l /\
    LogEntry.name e = FoodItem.name food /\
    LogEntry.calories e = FoodItem.calories food /\
    LogEntry.protein e = FoodItem.protein food /\
    LogEntry.carbs e = FoodItem.carbs food /\
    LogEntry.fat e = FoodItem.fat food.

(** The scenario as the testable properties word it: three items, the
    write of the second fails (the third would go through); then the first
    and the third are stored and are in the next notification, and the
    caller is told. *)
Definition partialBatchAsStated (env : Env) (w : World) (f1 f2 f3 : FoodItem.t) : Prop :=
  io_ok env (length (calls w)) = true ->
  io_ok env (length (calls w) + 1) = false ->
  io_ok env (length (calls w) + 2) = true ->
  let w' := exec (handleAddFood env (Some [f1; f2; f3])) w in
  logged f1 (listEntries STORAGE_USER_ID (storage w')) /\
  logged f3 (listEntries STORAGE_USER_ID (storage w')) /\
  Forall (fun d => logged f1 (snd d) /\ logged f3 (snd d))
    (nextDeliveries STORAGE_USER_ID w') /\
  error (app w') <> None.

(** C1, as stated, fails: the [try] encloses the whole loop, so the failing
    second write ends the loop and the third item is never handed to the
    service. *)
Lemma partial_batch_third_item_counterexample :
  ~ partialBatchAsStated sampleEnv (exec subscribeEffect freshWorld) apple bread cheese.
Proof.
  intros H.
  destruct (H eq_refl eq_refl eq_refl) as (_ & (e & Hin & Hname & _) & _).
  vm_compute in Hin. destruct Hin as [<- | []]. discriminate Hname.
Qed.

Lemma batchEntries_logged (env : Env) (foods : list FoodItem.t) :
  forall (tick draw : nat) (before : list LogEntry.t),
    Forall (fun food => logged food (before ++ batchEntries env tick draw foods)) foods.
Proof.
  induction foods as [|food rest IH]; intros tick draw before; constructor.
  - eexists. split; [apply in_or_app; right; left; reflexivity |].
    cbn. repeat split.
  - cbn [batchEntries].
    specialize (IH (S (S tick)) (S draw)
      (before ++ [makeEntry food (now_at env tick) (random36_at env draw)
                    (now_at env (S tick))])).
    rewrite <- app_assoc in IH. exact IH.
Qed.

(** C1, amended. When the write of one item of a batch fails after the
    writes of the items before it went through, [handleAddFood] returns
    normally; the stored list is the previous list followed by the entries
    of exactly the items before the failing one, each of which is thus
    stored and not rolled back; the service was called once for each of
    these items and once for the failing one, and for no later item; the
    next notification carries that stored list to every subscriber; and
    [error] holds the message that some items were not added. *)
Theorem handleAddFood_partial_batch (env : Env) (w : World)
    (pre : list FoodItem.t) (food : FoodItem.t) (post : list FoodItem.t) :
  (forall i, (i < length pre)%nat -> io_ok env (length (calls w) + i) = true) ->
  io_ok env (length (calls w) + length pre) = false ->
  let w' := exec (handleAddFood env (Some (pre ++ food :: post))) w in
  let stored := batchEntries env (ticks w) (draws w) pre in
  result (handleAddFood env (Some (pre ++ food :: post))) w = Returned tt /\
  listEntries STORAGE_USER_ID (storage w')
    = listEntries STORAGE_USER_ID (storage w) ++ stored /\
  Forall (fun item => logged item (listEntries STORAGE_USER_ID (storage w'))) pre /\
  calls w'
    = calls w ++ map (CAdd STORAGE_USER_ID)
                   (batchEntries env (ticks w) (draws w) (pre ++ [food])) /\
  nextDeliveries STORAGE_USER_ID w'
    = map (fun s => (handle s, listEntries STORAGE_USER_ID (storage w) ++ stored))
        (List.filter (subscribedTo STORAGE_USER_ID) (registry (bus w))) /\
  error (app w') = Some "Failed to add some items. Check storage and retry.".
Proof.
  intros Hpre Hfail. cbn zeta.
  destruct (handleAddFood_failure env pre food post w Hpre Hfail) as (w1 & A & E).
  unfold exec at 1 2 3 4 5, result. rewrite E. cbn.
  split; [reflexivity |].
  split; [apply (adds_list _ _ _ _ A) |].
  split; [rewrite (adds_list _ _ _ _ A); apply batchEntries_logged |].
  split; [apply (adds_calls _ _ _ _ A) |].
  split; [| reflexivity].
  unfold nextDeliveries. cbn.
  rewrite (adds_registry _ _ _ _ A), (adds_list _ _ _ _ A). reflexivity.
Qed.

Lemma handleAddFood_partial_batch_witness :
  let w := exec subscribeEffect freshWorld in
  let w' := exec (handleAddFood sampleEnv (Some ([apple] ++ bread :: [cheese]))) w in
  io_ok sampleEnv (length (calls w) + length [apple]) = false /\
  map LogEntry.name (listEntries STORAGE_USER_ID (storage w')) = ["apple"] /\
  error (app w') = Some "Failed to add some items. Check storage and retry.".
Proof.
  cbn zeta.
  assert (Hpre : forall i, (i < length [apple])%nat ->
            io_ok sampleEnv (length (calls (exec subscribeEffect freshWorld)) + i) = true).
  { intros i Hi. cbn in Hi. replace i with 0%nat by lia. reflexivity. }
  assert (Hfail : io_ok sampleEnv
            (length (calls (exec subscribeEffect freshWorld)) + length [apple]) = false)
    by reflexivity.
  destruct (handleAddFood_partial_batch sampleEnv (exec subscribeEffect freshWorld)
              [apple] bread [cheese] Hpre Hfail) as (_ & Hl & _ & _ & _ & He).
  split; [exact Hfail |]. split; [| exact He].
  rewrite Hl. reflexivity.
Defined.

(** ** Storage failures at the handlers *)

Lemma handleRemoveFood_failure (env : Env) (entryId : string) (w : World) :
  io_ok env (length (calls w)) = false ->
  handleRemoveFood env entryId w =
    (Returned tt,
     exec (setError (Some "Failed to remove food log."))
       (exec (consoleError "Failed to remove food log" PersistenceError)
          (withCalls (fun cs => cs ++ [CDelete STORAGE_USER_ID entryId]) w))).
Proof.
  intros H. unfold handleRemoveFood, tryCatch, deleteLogEntry, bind, storageOp.
  rewrite H. reflexivity.
Qed.

(** C3. A [PersistenceError] raised by [deleteLogEntry] inside
    [handleRemoveFood], or by [addLogEntry] inside [handleAddFood], is
    caught by the handler: the handler returns normally, the error banner
    shows the handler's message, dismissing the banner clears it, and the
    trace of service calls holds the failing operation once, with nothing
    issued after it. *)
Theorem storage_failures_reported (env : Env) (w : World) :
  (forall entryId,
     io_ok env (length (calls w)) = false ->
     let w' := exec (handleRemoveFood env entryId) w in
     result (handleRemoveFood env entryId) w = Returned tt /\
     errorBanner (app w') = Some "Failed to remove food log." /\
     errorBanner (app (exec dismissError w')) = None /\
     calls w' = calls w ++ [CDelete STORAGE_USER_ID entryId] /\
     storage w' = storage w) /\
  (forall pre food post,
     (forall i, (i < length pre)%nat -> io_ok env (length (calls w) + i) = true) ->
     io_ok env (length (calls w) + length pre) = false ->
     let w' := exec (handleAddFood env (Some (pre ++ food :: post))) w in
     result (handleAddFood env (Some (pre ++ food :: post))) w = Returned tt /\
     errorBanner (app w') = Some "Failed to add some items. Check storage and retry." /\
     errorBanner (app (exec dismissError w')) = None /\
     calls w'
       = calls w ++ map (CAdd STORAGE_USER_ID)
                      (batchEntries env (ticks w) (draws w) (pre ++ [food])) /\
     length (calls w') = (length (calls w) + length pre + 1)%nat).
Proof.
  split.
  - intros entryId H. cbn zeta. unfold exec at 1 2 4 5, result.
    rewrite (handleRemoveFood_failure env entryId w H). cbn.
    repeat split.
  - intros pre food post Hpre Hfail. cbn zeta.
    destruct (handleAddFood_failure env pre food post w Hpre Hfail) as (w1 & A & E).
    unfold exec at 1 2 4 5, result. rewrite E. cbn.
    split; [reflexivity |]. split; [reflexivity |]. split; [reflexivity |].
    rewrite (adds_calls _ _ _ _ A). split; [reflexivity |].
    rewrite length_app, length_map, batchEntries_length, length_app. cbn. lia.
Qed.

Lemma storage_failures_reported_witness :
  (io_ok brokenEnv (length (calls freshWorld)) = false /\
   errorBanner (app (exec (handleRemoveFood brokenEnv "1717279140000k3x9q2m7a") freshWorld))
     = Some "Failed to remove food log.") /\
  (io_ok sampleEnv (length (calls (exec subscribeEffect freshWorld)) + length [apple]) = false /\
   result (handleAddFood sampleEnv (Some ([apple] ++ bread :: [cheese])))
     (exec subscribeEffect freshWorld) = Returned tt).
Proof.
  split.
  - split; [reflexivity |].
    apply (proj1 (storage_failures_reported brokenEnv freshWorld)
             "1717279140000k3x9q2m7a" eq_refl).
  - split; [reflexivity |].
    apply (proj2 (storage_failures_reported sampleEnv (exec subscribeEffect freshWorld))
             [apple] bread [cheese]).
    + intros i Hi. cbn in Hi. replace i with 0%nat by lia. reflexivity.
    + reflexivity.
Defined.

(** ** The day filter *)

(** The entries the filter is to keep, in the words of the aggregation
    engine: those without a numeric timestamp, and those whose numeric
    timestamp is a valid instant of the selected date's calendar day. *)
Definition keptOnDay (env : Env) (selected : Date) (e : LogEntry.t) : Prop :=
  typeof (LogEntry.timestamp e) <> "number" \/
  exists n s,
    LogEntry.timestamp e = JNumber n /\ Z.abs n <= maxTimeValue /\
    selected = Some s /\ localDay env n = localDay env s.

Lemma onSelectedDay_keptOnDay (env : Env) (selected : Date) (e : LogEntry.t) :
  onSelectedDay env selected e = true <-> keptOnDay env selected e.
Proof.
  unfold onSelectedDay, keptOnDay.
  destruct (LogEntry.timestamp e) as [n | s | ]; cbn.
  - unfold newDate. destruct (Z.leb_spec (Z.abs n) maxTimeValue) as [Hle | Hgt].
    + destruct selected as [s|]; cbn.
      * rewrite Z.eqb_eq. split.
        -- intros H. right. exists n, s. auto.
        -- intros [H | (n' & s' & Hn & _ & Hs & Hd)]; [congruence |].
           inversion Hn; inversion Hs; subst. exact Hd.
      * split; [discriminate |].
        intros [H | (n' & s' & _ & _ & Hs & _)]; [congruence | discriminate].
    + cbn. split; [discriminate |].
      intros [H | (n' & s' & Hn & Hle & _)]; [congruence |].
      inversion Hn; subst. lia.
  - split; [intros _; left; discriminate | reflexivity].
  - split; [intros _; left; discriminate | reflexivity].
Qed.

Lemma localDay_localDateTime (env : Env) (y m d hh mi : Z) :
  0 <= hh < 24 -> 0 <= mi < 60 ->
  localDay env (localDateTime env y m d hh mi) = daysFromCivil y m d.
Proof.
  intros Hh Hm. unfold localDay, localDateTime, msPerDay.
  symmetry. apply (Z.div_unique_pos _ _ _ (hh * 3600000 + mi * 60000)); lia.
Qed.

(** C2. The lists handed to the macro tracker and rendered as the food log
    are the same filter of [loggedFoods]; an entry is kept exactly when
    its timestamp is not a number or is a numeric instant of the selected
    date's calendar day. In particular an entry timestamped
    2024-06-01T23:59 local time is kept when the selected date is any
    instant of 2024-06-01 and dropped when it is any instant of
    2024-06-02. *)
Theorem day_filter_keeps_selected_day (env : Env) (a : AppState) :
  macroTrackerFoods env a = foodLogItems env a /\
  foodLogItems env a = List.filter (onSelectedDay env (selectedDate a)) (loggedFoods a) /\
  (forall e, onSelectedDay env (selectedDate a) e = true <-> keptOnDay env (selectedDate a) e) /\
  (forall e, In e (foodLogItems env a)
             <-> In e (loggedFoods a) /\ keptOnDay env (selectedDate a) e) /\
  (forall e s,
     In e (loggedFoods a) ->
     LogEntry.timestamp e = JNumber (localDateTime env 2024 6 1 23 59) ->
     Z.abs (utcOffsetMs env) <= msPerDay ->
     selectedDate a = Some s ->
     (localDay env s = daysFromCivil 2024 6 1 -> In e (foodLogItems env a)) /\
     (localDay env s = daysFromCivil 2024 6 2 -> ~ In e (foodLogItems env a))).
Proof.
  split; [reflexivity |]. split; [reflexivity |].
  split; [intros e; apply onSelectedDay_keptOnDay |].
  split.
  - intros e. unfold foodLogItems. rewrite filter_In, onSelectedDay_keptOnDay. reflexivity.
  - intros e s Hin Hts Hoff Hsel.
    assert (Hday : localDay env (localDateTime env 2024 6 1 23 59) = daysFromCivil 2024 6 1)
      by (apply localDay_localDateTime; lia).
    assert (Hvalid : Z.abs (localDateTime env 2024 6 1 23 59) <= maxTimeValue).
    { unfold localDateTime. change (daysFromCivil 2024 6 1) with 19875.
      unfold msPerDay, maxTimeValue in *. lia. }
    unfold foodLogItems. rewrite filter_In, onSelectedDay_keptOnDay, Hsel. split.
    + intros Hs. split; [exact Hin |]. right.
      exists (localDateTime env 2024 6 1 23 59), s. rewrite Hday, Hs. auto.
    + intros Hs [_ [Hnot | (n & s' & Hn & _ & Hs' & Hd)]].
      * rewrite Hts in Hnot. apply Hnot. reflexivity.
      * rewrite Hts in Hn. inversion Hn; inversion Hs'; subst.
        rewrite Hday, Hs in Hd. vm_compute in Hd. discriminate Hd.
Qed.

(** An entry logged at 23:59 on 2024-06-01, one without a numeric
    timestamp, and a view with the first of June selected. *)
Definition lateSnack : LogEntry.t :=
  LogEntry.mk "1717279140000k3x9q2m7a" "yoghurt" "1 serving" 120 8 12 4
    (JNumber (localDateTime sampleEnv 2024 6 1 23 59)).

Definition legacyEntry : LogEntry.t :=
  LogEntry.mk "legacy" "porridge" "1 bowl" 150 5 27 3 JUndefined.

Definition juneFirst : AppState :=
  mkApp true (Some (localDateTime sampleEnv 2024 6 1 9 0)) [lateSnack; legacyEntry]
    defaultGoals false None None.

Lemma day_filter_keeps_selected_day_witness :
  (In lateSnack (loggedFoods juneFirst) /\
   LogEntry.timestamp lateSnack = JNumber (localDateTime sampleEnv 2024 6 1 23 59) /\
   Z.abs (utcOffsetMs sampleEnv) <= msPerDay /\
   selectedDate juneFirst = Some (localDateTime sampleEnv 2024 6 1 9 0) /\
   localDay sampleEnv (localDateTime sampleEnv 2024 6 1 9 0) = daysFromCivil 2024 6 1) /\
  In lateSnack (foodLogItems sampleEnv juneFirst).
Proof.
  assert (Hin : In lateSnack (loggedFoods juneFirst)) by (left; reflexivity).
  assert (Hoff : Z.abs (utcOffsetMs sampleEnv) <= msPerDay) by (vm_compute; discriminate).
  split; [repeat split; assumption |].
  apply (proj2 (proj2 (proj2 (proj2 (day_filter_keeps_selected_day sampleEnv juneFirst))))
           lateSnack (localDateTime sampleEnv 2024 6 1 9 0) Hin eq_refl Hoff eq_refl).
  reflexivity.
Defined.

(** ** Clearing all data *)

(** C4. [handleClearData] changes nothing when the confirmation is
    declined. When it is confirmed the whole persisted state is erased,
    for every user: no entries and no profile remain, and [getUserProfile]
    afterwards returns the not-found outcome for every user whenever the
    read itself goes through. *)
Theorem handleClearData_erases_after_confirmation (env : Env) (w : World) :
  handleClearData env false w = (Returned tt, w) /\
  let w' := exec (handleClearData env true) w in
  result (handleClearData env true) w = Returned tt /\
  storage w' = emptyStorage /\
  (forall u, listEntries u (storage w') = [] /\ profiles (storage w') !! u = None) /\
  (forall u, io_ok env (length (calls w')) = true ->
             result (getUserProfile env u) w' = Returned None).
Proof.
  split; [reflexivity |]. cbn zeta.
  split; [reflexivity |]. split; [reflexivity |]. split.
  - intros u. split; reflexivity.
  - intros u H. unfold result, getUserProfile, bind, storageOp.
    rewrite H. cbn. reflexivity.
Qed.

(** A world in which the profile of the local user has been saved. *)
Definition savedWorld : World := exec (saveGoals reliableEnv) freshWorld.

Lemma handleClearData_erases_after_confirmation_witness :
  is_Some (profiles (storage savedWorld) !! STORAGE_USER_ID) /\
  io_ok reliableEnv (length (calls (exec (handleClearData reliableEnv true) savedWorld))) = true /\
  result (getUserProfile reliableEnv STORAGE_USER_ID)
    (exec (handleClearData reliableEnv true) savedWorld) = Returned None.
Proof.
  split; [vm_compute; eauto |]. split; [reflexivity |].
  apply (proj2 (proj2 (proj2 (proj2
           (handleClearData_erases_after_confirmation reliableEnv savedWorld))))
           STORAGE_USER_ID).
  reflexivity.
Defined.

(** ** Profile updates *)

Lemma updateUserProfile_succeeds (env : Env) (u : string) (partial : gmap string attr)
    (w : World) :
  io_ok env (length (calls w)) = true ->
  updateUserProfile env u partial w =
    (Returned tt,
     withStorage (fun s =>
       mkStorage (logs s)
         (<[u := mergeProfile partial (default (defaultProfile u) (profiles s !! u))]>
            (profiles s)))
       (withCalls (fun cs => cs ++ [CUpdateProfile u partial]) w)).
Proof.
  intros H. unfold updateUserProfile, bind, storageOp. rewrite H. reflexivity.
Qed.

(** C5. [updateUserProfile] is a field-level merge. After a successful
    update the stored profile holds every field of the partial attributes
    with its new value, and every other field exactly as it was stored
    before (as in the default profile when none was stored). After two
    successful updates the fields of both are present: those of the second
    with its values, those of the first that the second does not name with
    the first's values. [saveGoals], which passes only [macroGoals], thus
    leaves every other stored field unchanged. *)
Theorem updateUserProfile_merges (env : Env) (w : World) (u : string)
    (partial : gmap string attr) :
  io_ok env (length (calls w)) = true ->
  let before := default (defaultProfile u) (profiles (storage w) !! u) in
  let w' := exec (updateUserProfile env u partial) w in
  (exists p',
     profiles (storage w') !! u = Some p' /\
     userId p' = userId before /\
     (forall f v, partial !! f = Some v -> attrs p' !! f = Some v) /\
     (forall f, partial !! f = None -> attrs p' !! f = attrs before !! f)) /\
  (forall partial2,
     io_ok env (S (length (calls w))) = true ->
     exists p'',
       profiles (storage (exec (updateUserProfile env u partial2) w')) !! u = Some p'' /\
       (forall f v, partial2 !! f = Some v -> attrs p'' !! f = Some v) /\
       (forall f v, partial !! f = Some v -> partial2 !! f = None ->
                    attrs p'' !! f = Some v) /\
       (forall f, partial !! f = None -> partial2 !! f = None ->
                  attrs p'' !! f = attrs before !! f)) /\
  (u = STORAGE_USER_ID ->
   exists p',
     profiles (storage (exec (saveGoals env) w)) !! u = Some p' /\
     attrs p' !! "macroGoals" = Some (AGoals (goals (app w))) /\
     (forall f, f <> "macroGoals" -> attrs p' !! f = attrs before !! f)).
Proof.
  intros Hok. cbn zeta.
  unfold exec. rewrite !(updateUserProfile_succeeds env u partial w Hok).
  cbn [snd]. split; [| split].
  - eexists. cbn. rewrite lookup_insert_eq. split; [reflexivity |].
    split; [reflexivity |]. cbn. split.
    + intros f v Hf. by apply lookup_union_Some_l.
    + intros f Hf. by apply lookup_union_r.
  - intros partial2 Hok2.
    rewrite updateUserProfile_succeeds.
    2:{ cbn. rewrite length_app. cbn. rewrite Nat.add_1_r. exact Hok2. }
    eexists. cbn. rewrite lookup_insert_eq. split; [reflexivity |].
    rewrite lookup_insert_eq. cbn. split; [| split].
    + intros f v Hf. by apply lookup_union_Some_l.
    + intros f v Hf Hf2. rewrite lookup_union_r by exact Hf2.
      by apply lookup_union_Some_l.
    + intros f Hf Hf2. rewrite !lookup_union_r by assumption. reflexivity.
  - intros ->. unfold saveGoals, tryCatch, bind at 1, gets.
    rewrite (updateUserProfile_succeeds env _ _ w Hok).
    eexists. cbn. rewrite lookup_insert_eq. split; [reflexivity |]. cbn. split.
    + apply lookup_union_Some_l. apply lookup_singleton_eq.
    + intros f Hf. apply lookup_union_r. by apply lookup_singleton_ne.
Qed.

(** A stored profile with a field besides the goals. *)
Definition profiledWorld : World :=
  withStorage (fun s =>
    mkStorage (logs s)
      (<[STORAGE_USER_ID :=
           mkProfile STORAGE_USER_ID
             {[ "macroGoals" := AGoals defaultGoals; "displayName" := AText "Sam" ]}]>
         (profiles s)))
    freshWorld.

Lemma updateUserProfile_merges_witness :
  io_ok reliableEnv (length (calls profiledWorld)) = true /\
  exists p',
    profiles (storage (exec (updateUserProfile reliableEnv STORAGE_USER_ID
                               {[ "macroGoals" := AGoals (MacroGoals.mk 1800 140 200 60) ]})
                         profiledWorld)) !! STORAGE_USER_ID = Some p' /\
    attrs p' !! "displayName" = Some (AText "Sam") /\
    attrs p' !! "macroGoals" = Some (AGoals (MacroGoals.mk 1800 140 200 60)).
Proof.
  split; [reflexivity |].
  destruct (proj1 (updateUserProfile_merges reliableEnv profiledWorld STORAGE_USER_ID
                     {[ "macroGoals" := AGoals (MacroGoals.mk 1800 140 200 60) ]} eq_refl))
    as (p' & Hp & _ & Hnew & Hold).
  exists p'. split; [exact Hp |]. split.
  - rewrite Hold; [vm_compute; reflexivity | vm_compute; reflexivity].
  - apply Hnew. vm_compute. reflexivity.
Defined.

(** ** Subscribing *)

Lemma filter_idempotent {A} (p : A -> bool) (l : list A) :
  List.filter p (List.filter p l) = List.filter p l.
Proof.
  induction l as [|x l IH]; cbn; [reflexivity |].
  destruct (p x) eqn:E; cbn; rewrite ?E, IH; reflexivity.
Qed.

Lemma unsubscribe_idempotent (h : nat) (w : World) :
  exec (unsubscribe h) (exec (unsubscribe h) w) = exec (unsubscribe h) w.
Proof.
  unfold exec, unsubscribe, modify, withBus. cbn. by rewrite filter_idempotent.
Qed.

(** C7. [subscribeToLogEntries u cb] at once invokes [cb] with the stored
    list of [u], whatever that list is and whether or not any mutation
    has happened, touches neither the storage nor the trace of service
    calls, and returns the handle of the new registration; unsubscribing
    with a handle twice leaves the same world as unsubscribing once, and
    always returns. For [App], whose callback is [setLoggedFoods], the
    subscription effect makes [loggedFoods] the stored list of the local
    user, and running its cleanup twice is the same as running it once. *)
Theorem subscribe_pushes_current_snapshot (u : string)
    (cb : list LogEntry.t -> AppState -> AppState) (w : World) :
  let h := nextHandle (bus w) in
  let snapshot := listEntries u (storage w) in
  let w' := exec (subscribeToLogEntries u cb) w in
  result (subscribeToLogEntries u cb) w = Returned h /\
  app w' = cb snapshot (app w) /\
  delivered (bus w') = delivered (bus w) ++ [(h, snapshot)] /\
  registry (bus w') = registry (bus w) ++ [mkSub h u cb] /\
  storage w' = storage w /\ calls w' = calls w /\
  (forall k v, result (unsubscribe k) v = Returned tt /\
               exec (unsubscribe k) (exec (unsubscribe k) v) = exec (unsubscribe k) v) /\
  loggedFoods (app (exec subscribeEffect w)) = listEntries STORAGE_USER_ID (storage w) /\
  unsubRef (app (exec subscribeEffect w)) = Some h /\
  exec subscribeCleanup (exec subscribeCleanup (exec subscribeEffect w))
    = exec subscribeCleanup (exec subscribeEffect w).
Proof.
  cbn zeta. repeat split.
  - apply unsubscribe_idempotent.
  - set (v := exec subscribeEffect w).
    assert (Hv : exec subscribeCleanup v = exec (unsubscribe (nextHandle (bus w))) v)
      by reflexivity.
    rewrite Hv.
    change (exec subscribeCleanup (exec (unsubscribe (nextHandle (bus w))) v))
      with (exec (unsubscribe (nextHandle (bus w)))
              (exec (unsubscribe (nextHandle (bus w))) v)).
    apply unsubscribe_idempotent.
Qed.

(** * Further properties of the handlers and effects *)

(** ** How the service operations run *)

Lemma getUserProfile_run (env : Env) (u : string) (w : World) :
  getUserProfile env u w =
    (if io_ok env (length (calls w)) then Returned (profiles (storage w) !! u)
     else Thrown PersistenceError,
     withCalls (fun cs => cs ++ [CGetProfile u]) w).
Proof.
  unfold getUserProfile, bind, storageOp, gets.
  destruct (io_ok env (length (calls w))); reflexivity.
Qed.

Lemma updateUserProfile_fails (env : Env) (u : string) (partial : gmap string attr)
    (w : World) :
  io_ok env (length (calls w)) = false ->
  updateUserProfile env u partial w =
    (Thrown PersistenceError, withCalls (fun cs => cs ++ [CUpdateProfile u partial]) w).
Proof.
  intros H. unfold updateUserProfile, bind, storageOp. rewrite H. reflexivity.
Qed.

(** The filter [deleteLogEntry] applies to the stored list. *)
Definition otherThan (entryId : string) (e : LogEntry.t) : bool :=
  negb (String.eqb (LogEntry.id e) entryId).

Definition removed (u entryId : string) (s : Storage) : Storage :=
  mkStorage (alter (List.filter (otherThan entryId)) u (logs s)) (profiles s).

Lemma deleteLogEntry_succeeds (env : Env) (u entryId : string) (w : World) :
  io_ok env (length (calls w)) = true ->
  deleteLogEntry env u entryId w =
    (Returned tt,
     exec (notify u)
       (withStorage (removed u entryId)
          (withCalls (fun cs => cs ++ [CDelete u entryId]) w))).
Proof.
  intros H. unfold deleteLogEntry, bind, storageOp. rewrite H. reflexivity.
Qed.

Lemma listEntries_removed (u entryId : string) (s : Storage) :
  listEntries u (removed u entryId s) = List.filter (otherThan entryId) (listEntries u s).
Proof.
  unfold listEntries, removed. cbn. rewrite lookup_alter_eq.
  destruct (logs s !! u); reflexivity.
Qed.

Lemma logs_removed_other (u v entryId : string) (s : Storage) :
  u <> v -> logs (removed u entryId s) !! v = logs s !! v.
Proof. intros H. unfold removed. cbn. by rewrite lookup_alter_ne. Qed.

(** ** What the callbacks do to the React state *)

(** The state after one notification carrying [snapshot] to [subs]. *)
Definition viewAfter (subs : list Subscription) (snapshot : list LogEntry.t)
    (a : AppState) : AppState :=
  fold_left (fun a s => callback s snapshot a) subs a.

Definition subscribersOf (u : string) (w : World) : list Subscription :=
  List.filter (subscribedTo u) (registry (bus w)).

Lemma deliver_fold_app (snapshot : list LogEntry.t) (subs : list Subscription) :
  forall w, app (fold_left (deliver snapshot) subs w) = viewAfter subs snapshot (app w).
Proof.
  induction subs as [|s subs IH]; intros w; [reflexivity |].
  cbn. rewrite IH. reflexivity.
Qed.

Lemma notify_app (u : string) (w : World) :
  app (exec (notify u) w) = viewAfter (subscribersOf u w) (listEntries u (storage w)) (app w).
Proof. unfold exec, notify. cbn. apply deliver_fold_app. Qed.

(** Only [App]'s own callback is registered for the local user, at least
    once. *)
Definition appSubscribed (w : World) : Prop :=
  subscribersOf STORAGE_USER_ID w <> [] /\
  Forall (fun s => callback s = appCallback) (subscribersOf STORAGE_USER_ID w).

Lemma viewAfter_cons (s : Subscription) (subs : list Subscription)
    (snapshot : list LogEntry.t) (a : AppState) :
  viewAfter (s :: subs) snapshot a = viewAfter subs snapshot (callback s snapshot a).
Proof. reflexivity. Qed.

Lemma viewAfter_appCallback_again (subs : list Subscription) (snapshot : list LogEntry.t) :
  Forall (fun s => callback s = appCallback) subs ->
  forall a, viewAfter subs snapshot (appCallback snapshot a) = appCallback snapshot a.
Proof.
  induction 1 as [|s subs Hs Hall IH]; intros a; [reflexivity |].
  rewrite viewAfter_cons, Hs.
  change (appCallback snapshot (appCallback snapshot a)) with (appCallback snapshot a).
  apply IH.
Qed.

Lemma viewAfter_appCallback (subs : list Subscription) (snapshot : list LogEntry.t)
    (a : AppState) :
  subs <> [] ->
  Forall (fun s => callback s = appCallback) subs ->
  viewAfter subs snapshot a = appCallback snapshot a.
Proof.
  intros Hne Hall. destruct Hall as [|s subs Hs Hall]; [congruence |].
  rewrite viewAfter_cons, Hs. by apply viewAfter_appCallback_again.
Qed.

(** The state after the notifications of a run of successful adds. *)
Fixpoint viewAfterAdds (subs : list Subscription) (stored es : list LogEntry.t)
    (a : AppState) : AppState :=
  match es with
  | [] => a
  | e :: rest => viewAfterAdds subs (stored ++ [e]) rest (viewAfter subs (stored ++ [e]) a)
  end.

Lemma viewAfterAdds_none (stored es : list LogEntry.t) (a : AppState) :
  viewAfterAdds [] stored es a = a.
Proof. revert stored a. induction es as [|e es IH]; intros; cbn; auto. Qed.

Lemma viewAfterAdds_appCallback (subs : list Subscription) (es : list LogEntry.t) :
  subs <> [] ->
  Forall (fun s => callback s = appCallback) subs ->
  forall stored a,
    es <> [] ->
    viewAfterAdds subs stored es a = appCallback (stored ++ es) a.
Proof.
  intros Hne Hall. induction es as [|e es IH]; intros stored a Hes; [congruence |].
  cbn [viewAfterAdds]. rewrite viewAfter_appCallback by assumption.
  destruct es as [|e' es'].
  - reflexivity.
  - rewrite IH by discriminate. rewrite <- app_assoc. reflexivity.
Qed.

Lemma addLoop_success_app (env : Env) (foods : list FoodItem.t) :
  forall acc w,
    (forall i, (i < length foods)%nat -> io_ok env (length (calls w) + i) = true) ->
    app (exec (addLoop env foods acc) w)
    = viewAfterAdds (subscribersOf STORAGE_USER_ID w)
        (listEntries STORAGE_USER_ID (storage w))
        (batchEntries env (ticks w) (draws w) foods) (app w).
Proof.
  induction foods as [|food rest IH]; intros acc w Hok; [reflexivity |].
  unfold exec. rewrite addLoop_cons, addLogEntry_succeeds.
  2:{ cbn. rewrite <- (Hok 0%nat); [f_equal; lia | cbn; lia]. }
  pose proof (afterAdds_one_stored env food w) as A.
  assert (Happ : app (exec (notify STORAGE_USER_ID)
                   (withStorage (appended STORAGE_USER_ID (entryAt env w food))
                      (withCalls (fun cs => cs ++ [CAdd STORAGE_USER_ID (entryAt env w food)])
                         (afterReads w))))
                 = viewAfter (subscribersOf STORAGE_USER_ID w)
                     (listEntries STORAGE_USER_ID (storage w) ++ [entryAt env w food]) (app w)).
  { rewrite notify_app. cbn [storage withStorage withCalls afterReads withTicks withDraws].
    rewrite listEntries_appended. reflexivity. }
  set (w1 := exec _ _) in *.
  fold (exec (addLoop env rest (acc ++ [entryAt env w food])) w1).
  rewrite IH.
  2:{ intros i Hi. rewrite (adds_calls _ _ _ _ A), length_app. cbn.
      rewrite <- (Hok (S i)); [f_equal; lia | cbn; lia]. }
  unfold subscribersOf at 1. rewrite (adds_registry _ _ _ _ A), (adds_list _ _ _ _ A).
  rewrite (adds_ticks _ _ _ _ A), (adds_draws _ _ _ _ A), Happ.
  cbn [length Nat.mul Nat.add batchEntries viewAfterAdds].
  replace (ticks w + 2)%nat with (S (S (ticks w))) by lia.
  replace (draws w + 1)%nat with (S (draws w)) by lia.
  reflexivity.
Qed.

Lemma addLoop_failure_app (env : Env) (pre : list FoodItem.t) (food : FoodItem.t)
    (post : list FoodItem.t) :
  forall acc w,
    (forall i, (i < length pre)%nat -> io_ok env (length (calls w) + i) = true) ->
    io_ok env (length (calls w) + length pre) = false ->
    app (exec (addLoop env (pre ++ food :: post) acc) w)
    = viewAfterAdds (subscribersOf STORAGE_USER_ID w)
        (listEntries STORAGE_USER_ID (storage w))
        (batchEntries env (ticks w) (draws w) pre) (app w).
Proof.
  induction pre as [|p pre IH]; intros acc w Hok Hfail.
  - rewrite app_nil_l. unfold exec. rewrite addLoop_cons, addLogEntry_fails.
    2:{ cbn. rewrite <- Hfail. f_equal. cbn. lia. }
    reflexivity.
  - rewrite <- app_comm_cons. unfold exec. rewrite addLoop_cons, addLogEntry_succeeds.
    2:{ cbn. rewrite <- (Hok 0%nat); [f_equal; lia | cbn; lia]. }
    pose proof (afterAdds_one_stored env p w) as A.
    assert (Happ : app (exec (notify STORAGE_USER_ID)
                     (withStorage (appended STORAGE_USER_ID (entryAt env w p))
                        (withCalls (fun cs => cs ++ [CAdd STORAGE_USER_ID (entryAt env w p)])
                           (afterReads w))))
                   = viewAfter (subscribersOf STORAGE_USER_ID w)
                       (listEntries STORAGE_USER_ID (storage w) ++ [entryAt env w p]) (app w)).
    { rewrite notify_app. cbn [storage withStorage withCalls afterReads withTicks withDraws].
      rewrite listEntries_appended. reflexivity. }
    set (w1 := exec _ _) in *.
    fold (exec (addLoop env (pre ++ food :: post) (acc ++ [entryAt env w p])) w1).
    rewrite IH.
    2:{ intros i Hi. rewrite (adds_calls _ _ _ _ A), length_app. cbn.
        rewrite <- (Hok (S i)); [f_equal; lia | cbn; lia]. }
    2:{ rewrite (adds_calls _ _ _ _ A), length_app. cbn.
        rewrite <- Hfail. f_equal. cbn. lia. }
    unfold subscribersOf at 1. rewrite (adds_registry _ _ _ _ A), (adds_list _ _ _ _ A).
    rewrite (adds_ticks _ _ _ _ A), (adds_draws _ _ _ _ A), Happ.
    cbn [length Nat.mul Nat.add batchEntries viewAfterAdds].
    replace (ticks w + 2)%nat with (S (S (ticks w))) by lia.
    replace (draws w + 1)%nat with (S (draws w)) by lia.
    reflexivity.
Qed.

Lemma handleAddFood_success_run (env : Env) (foods : list FoodItem.t) (w : World) :
  foods <> [] ->
  (forall i, (i < length foods)%nat -> io_ok env (length (calls w) + i) = true) ->
  let new := batchEntries env (ticks w) (draws w) foods in
  let w1 := exec (addLoop env foods []) w in
  afterAdds w new new w1 /\
  app w1 = viewAfterAdds (subscribersOf STORAGE_USER_ID w)
             (listEntries STORAGE_USER_ID (storage w)) new (app w) /\
  handleAddFood env (Some foods) w
    = (Returned tt, exec (setLoggedFoods (fun prev => prev ++ new)) w1).
Proof.
  intros Hne Hok. cbn zeta.
  destruct (addLoop_success env foods [] w Hok) as (w1 & E & A).
  assert (Hw1 : exec (addLoop env foods []) w = w1) by (unfold exec; rewrite E; reflexivity).
  rewrite Hw1. split; [exact A |]. split.
  - rewrite <- Hw1. by apply addLoop_success_app.
  - rewrite handleAddFood_nonempty by exact Hne.
    unfold tryCatch, bind at 1. rewrite E. reflexivity.
Qed.

Lemma handleAddFood_failure_run (env : Env) (pre : list FoodItem.t) (food : FoodItem.t)
    (post : list FoodItem.t) (w : World) :
  (forall i, (i < length pre)%nat -> io_ok env (length (calls w) + i) = true) ->
  io_ok env (length (calls w) + length pre) = false ->
  let w1 := exec (addLoop env (pre ++ food :: post) []) w in
  afterAdds w (batchEntries env (ticks w) (draws w) pre)
    (batchEntries env (ticks w) (draws w) (pre ++ [food])) w1 /\
  app w1 = viewAfterAdds (subscribersOf STORAGE_USER_ID w)
             (listEntries STORAGE_USER_ID (storage w))
             (batchEntries env (ticks w) (draws w) pre) (app w) /\
  handleAddFood env (Some (pre ++ food :: post)) w
    = (Returned tt,
       exec (setError (Some addFailedMessage))
         (exec (consoleError "Failed to add food logs:" PersistenceError) w1)).
Proof.
  intros Hok Hfail. cbn zeta.
  destruct (addLoop_failure env pre food post [] w Hok Hfail) as (w1 & E & A).
  assert (Hw1 : exec (addLoop env (pre ++ food :: post) []) w = w1)
    by (unfold exec; rewrite E; reflexivity).
  rewrite Hw1. split; [exact A |]. split.
  - rewrite <- Hw1. by apply addLoop_failure_app.
  - rewrite handleAddFood_nonempty by (destruct pre; discriminate).
    unfold tryCatch, bind at 1. rewrite E. reflexivity.
Qed.

(** ** Handlers and effects always return *)

(** X1. None of [App]'s handlers and effects lets an exception escape:
    whatever the storage does, [handleAddFood], [handleRemoveFood],
    [initializeUser], [loadUserProfile] and [saveGoals] return normally. *)
Theorem handlers_never_throw (env : Env) (w : World) :
  (forall foods, result (handleAddFood env foods) w = Returned tt) /\
  (forall entryId, result (handleRemoveFood env entryId) w = Returned tt) /\
  result (initializeUser env) w = Returned tt /\
  result (loadUserProfile env) w = Returned tt /\
  result (saveGoals env) w = Returned tt.
Proof.
  split; [| split; [| split; [| split]]].
  - intros [foods|]; [| reflexivity]. unfold result.
    destruct (first_failure env foods (length (calls w)))
      as [Hall | (pre & food & post & -> & Hpre & Hfail)].
    + destruct (handleAddFood_success env foods w Hall) as (w1 & _ & E).
      rewrite E. reflexivity.
    + destruct (handleAddFood_failure env pre food post w Hpre Hfail) as (w1 & _ & E).
      rewrite E. reflexivity.
  - intros entryId. unfold result.
    destruct (io_ok env (length (calls w))) eqn:E.
    + unfold handleRemoveFood, tryCatch. rewrite (deleteLogEntry_succeeds env _ _ w E).
      reflexivity.
    + rewrite (handleRemoveFood_failure env entryId w E). reflexivity.
  - unfold result, initializeUser, bind at 1, tryCatch, bind at 1.
    rewrite getUserProfile_run.
    destruct (io_ok env (length (calls w))); [| reflexivity].
    destruct (profiles (storage w) !! STORAGE_USER_ID) as [p|]; [| reflexivity].
    destruct (macroGoalsOf p); reflexivity.
  - unfold result, loadUserProfile, tryCatch, bind at 1.
    rewrite getUserProfile_run.
    destruct (io_ok env (length (calls w))); [| reflexivity].
    destruct (profiles (storage w) !! STORAGE_USER_ID ≫= macroGoalsOf); reflexivity.
  - unfold result, saveGoals, tryCatch, bind at 1, gets.
    destruct (io_ok env (length (calls w))) eqn:E.
    + rewrite (updateUserProfile_succeeds env _ _ w E). reflexivity.
    + rewrite (updateUserProfile_fails env _ _ w E). reflexivity.
Qed.

(** ** What [handleAddFood] leaves alone *)

(** X2. Whatever the storage does, [handleAddFood] changes no stored
    profile, no other user's entries and no registration of the
    subscription registry. *)
Theorem handleAddFood_storage_frame (env : Env) (foods : option (list FoodItem.t))
    (w : World) :
  let w' := exec (handleAddFood env foods) w in
  profiles (storage w') = profiles (storage w) /\
  (forall u, u <> STORAGE_USER_ID -> logs (storage w') !! u = logs (storage w) !! u) /\
  registry (bus w') = registry (bus w).
Proof.
  destruct foods as [foods|]; [| repeat split]. cbn zeta. unfold exec.
  destruct (first_failure env foods (length (calls w)))
    as [Hall | (pre & food & post & -> & Hpre & Hfail)].
  - destruct (handleAddFood_success env foods w Hall) as (w1 & A & E).
    rewrite E. cbn.
    split; [apply (adds_profiles _ _ _ _ A) |].
    split; [apply (adds_others _ _ _ _ A) | apply (adds_registry _ _ _ _ A)].
  - destruct (handleAddFood_failure env pre food post w Hpre Hfail) as (w1 & A & E).
    rewrite E. cbn.
    split; [apply (adds_profiles _ _ _ _ A) |].
    split; [apply (adds_others _ _ _ _ A) | apply (adds_registry _ _ _ _ A)].
Qed.

Lemma handleAddFood_storage_frame_witness :
  "someone-else" <> STORAGE_USER_ID /\
  logs (storage (exec (handleAddFood sampleEnv (Some [apple; bread; cheese])) freshWorld))
    !! "someone-else" = logs (storage freshWorld) !! "someone-else".
Proof.
  split; [discriminate |].
  apply (proj1 (proj2 (handleAddFood_storage_frame sampleEnv (Some [apple; bread; cheese])
                         freshWorld))).
  discriminate.
Defined.

(** ** A batch whose writes all succeed *)

(** X3. When every write of a batch succeeds, [handleAddFood] calls the
    service exactly once per item, in the order of the list; the stored
    list is the previous one followed by one entry per item, in that
    order; nothing is written to the console; and when nothing is
    subscribed for the local user, [loggedFoods] grows by exactly the new
    entries and [error] keeps its value. *)
Theorem handleAddFood_all_stored (env : Env) (foods : list FoodItem.t) (w : World) :
  (forall i, (i < length foods)%nat -> io_ok env (length (calls w) + i) = true) ->
  let w' := exec (handleAddFood env (Some foods)) w in
  let new := batchEntries env (ticks w) (draws w) foods in
  length new = length foods /\
  Forall2 (createdFrom env (ticks w)) foods new /\
  calls w' = calls w ++ map (CAdd STORAGE_USER_ID) new /\
  listEntries STORAGE_USER_ID (storage w')
    = listEntries STORAGE_USER_ID (storage w) ++ new /\
  console w' = console w /\
  (subscribersOf STORAGE_USER_ID w = [] ->
   loggedFoods (app w') = loggedFoods (app w) ++ new /\
   error (app w') = error (app w)).
Proof.
  intros Hok. cbn zeta.
  split; [apply batchEntries_length |]. split; [apply batchEntries_createdFrom |].
  destruct foods as [|f rest].
  - cbn. rewrite !app_nil_r. repeat split.
  - destruct (handleAddFood_success_run env (f :: rest) w ltac:(discriminate) Hok)
      as (A & Happ & E).
    unfold exec at 1 2 3 4 5. rewrite E. cbn [snd].
    set (w1 := exec (addLoop env (f :: rest) []) w) in *.
    split; [apply (adds_calls _ _ _ _ A) |].
    split; [apply (adds_list _ _ _ _ A) |].
    split; [apply (adds_console _ _ _ _ A) |].
    intros Hnone. rewrite Hnone, viewAfterAdds_none in Happ.
    cbn. rewrite Happ. split; reflexivity.
Qed.

Lemma handleAddFood_all_stored_witness :
  (forall i, (i < length [apple; bread])%nat ->
     io_ok reliableEnv (length (calls freshWorld) + i) = true) /\
  subscribersOf STORAGE_USER_ID freshWorld = [] /\
  map LogEntry.name
    (loggedFoods (app (exec (handleAddFood reliableEnv (Some [apple; bread])) freshWorld)))
  = ["apple"; "bread"].
Proof.
  assert (Hok : forall i, (i < length [apple; bread])%nat ->
            io_ok reliableEnv (length (calls freshWorld) + i) = true)
    by (intros; reflexivity).
  split; [exact Hok |]. split; [reflexivity |].
  destruct (handleAddFood_all_stored reliableEnv [apple; bread] freshWorld Hok)
    as (_ & _ & _ & _ & _ & Hview).
  destruct (Hview eq_refl) as [Hl _]. rewrite Hl. reflexivity.
Defined.

(** ** The view while [App] is subscribed *)

Lemma subscribed_success_view (env : Env) (foods : list FoodItem.t) (w : World) :
  appSubscribed w ->
  foods <> [] ->
  (forall i, (i < length foods)%nat -> io_ok env (length (calls w) + i) = true) ->
  let new := batchEntries env (ticks w) (draws w) foods in
  let stored' := listEntries STORAGE_USER_ID (storage w) ++ new in
  let w' := exec (handleAddFood env (Some foods)) w in
  listEntries STORAGE_USER_ID (storage w') = stored' /\
  app w' = appCallback (stored' ++ new) (app w) /\
  app (exec (notify STORAGE_USER_ID) w') = appCallback stored' (app w).
Proof.
  intros [Hne Hall] Hfoods Hok. cbn zeta.
  destruct (handleAddFood_success_run env foods w Hfoods Hok) as (A & Happ & E).
  unfold exec at 1 2 4. rewrite E. cbn [snd].
  set (w1 := exec (addLoop env foods []) w) in *.
  rewrite viewAfterAdds_appCallback in Happ; try assumption.
  2:{ intros Hnil. apply (f_equal (@length _)) in Hnil.
      rewrite batchEntries_length in Hnil. destruct foods; [congruence | discriminate]. }
  split; [apply (adds_list _ _ _ _ A) |]. split.
  - cbn. rewrite Happ. reflexivity.
  - rewrite notify_app. unfold subscribersOf. cbn.
    rewrite (adds_registry _ _ _ _ A), (adds_list _ _ _ _ A).
    fold (subscribersOf STORAGE_USER_ID w).
    rewrite viewAfter_appCallback by assumption. rewrite Happ. reflexivity.
Qed.

(** X4. With [App]'s own subscription in place, a batch whose writes all
    succeed leaves [loggedFoods] holding the stored list followed once more
    by the new entries: the notifications have already delivered them when
    the handler appends them. The next notification makes [loggedFoods] the
    stored list again. [goals] and [error] keep their values. *)
Theorem handleAddFood_subscribed_appends_again (env : Env) (foods : list FoodItem.t)
    (w : World) :
  appSubscribed w ->
  foods <> [] ->
  (forall i, (i < length foods)%nat -> io_ok env (length (calls w) + i) = true) ->
  let new := batchEntries env (ticks w) (draws w) foods in
  let w' := exec (handleAddFood env (Some foods)) w in
  loggedFoods (app w') = listEntries STORAGE_USER_ID (storage w') ++ new /\
  loggedFoods (app (exec (notify STORAGE_USER_ID) w'))
    = listEntries STORAGE_USER_ID (storage w') /\
  goals (app w') = goals (app w) /\
  error (app w') = error (app w).
Proof.
  intros Hsub Hfoods Hok. cbn zeta.
  destruct (subscribed_success_view env foods w Hsub Hfoods Hok) as (Hl & Ha & Hn).
  rewrite Hl, Ha, Hn. repeat split.
Qed.

Lemma appSubscribed_after_mount : appSubscribed (exec subscribeEffect freshWorld).
Proof.
  split; [vm_compute; discriminate |].
  repeat constructor.
Qed.

Lemma handleAddFood_subscribed_appends_again_witness :
  appSubscribed (exec subscribeEffect freshWorld) /\
  [apple; bread] <> [] /\
  map LogEntry.name
    (loggedFoods (app (exec (handleAddFood reliableEnv (Some [apple; bread]))
                         (exec subscribeEffect freshWorld))))
  = ["apple"; "bread"; "apple"; "bread"].
Proof.
  split; [exact appSubscribed_after_mount |]. split; [discriminate |].
  destruct (handleAddFood_subscribed_appends_again reliableEnv [apple; bread]
              (exec subscribeEffect freshWorld) appSubscribed_after_mount
              ltac:(discriminate) ltac:(intros; reflexivity)) as (Hl & _).
  rewrite Hl. reflexivity.
Defined.

(** X5. With [App]'s own subscription in place, a batch that fails at some
    item keeps the view in step with the storage: if [loggedFoods] was the
    stored list before the call it is the stored list after it, so the
    items stored before the failure are shown although the handler skips
    its own update of [loggedFoods]. [goals] keep their value. *)
Theorem handleAddFood_subscribed_failure_in_step (env : Env) (pre : list FoodItem.t)
    (food : FoodItem.t) (post : list FoodItem.t) (w : World) :
  appSubscribed w ->
  loggedFoods (app w) = listEntries STORAGE_USER_ID (storage w) ->
  (forall i, (i < length pre)%nat -> io_ok env (length (calls w) + i) = true) ->
  io_ok env (length (calls w) + length pre) = false ->
  let w' := exec (handleAddFood env (Some (pre ++ food :: post))) w in
  loggedFoods (app w') = listEntries STORAGE_USER_ID (storage w') /\
  goals (app w') = goals (app w).
Proof.
  intros [Hne Hall] Hsync Hok Hfail. cbn zeta.
  destruct (handleAddFood_failure_run env pre food post w Hok Hfail) as (A & Happ & E).
  unfold exec at 1 2 3. rewrite E. cbn.
  set (w1 := exec (addLoop env (pre ++ food :: post) []) w) in *.
  rewrite Happ, (adds_list _ _ _ _ A).
  destruct pre as [|p pre].
  - cbn. rewrite app_nil_r. split; [exact Hsync | reflexivity].
  - rewrite viewAfterAdds_appCallback by (assumption || discriminate).
    split; reflexivity.
Qed.

Lemma handleAddFood_subscribed_failure_in_step_witness :
  let w := exec subscribeEffect freshWorld in
  let w' := exec (handleAddFood sampleEnv (Some ([apple] ++ bread :: [cheese]))) w in
  appSubscribed w /\
  loggedFoods (app w) = listEntries STORAGE_USER_ID (storage w) /\
  io_ok sampleEnv (length (calls w) + length [apple]) = false /\
  loggedFoods (app w') = listEntries STORAGE_USER_ID (storage w').
Proof.
  cbn zeta.
  split; [exact appSubscribed_after_mount |]. split; [reflexivity |].
  split; [reflexivity |].
  apply (handleAddFood_subscribed_failure_in_step sampleEnv [apple] bread [cheese]
           (exec subscribeEffect freshWorld) appSubscribed_after_mount eq_refl).
  - intros i Hi. cbn in Hi. replace i with 0%nat by lia. reflexivity.
  - reflexivity.
Defined.

(** ** Removing an entry *)

Lemma otherThan_true (entryId : string) (e : LogEntry.t) :
  otherThan entryId e = true <-> LogEntry.id e <> entryId.
Proof.
  unfold otherThan. rewrite negb_true_iff. apply String.eqb_neq.
Qed.

Lemma filter_otherThan_absent (entryId : string) (l : list LogEntry.t) :
  Forall (fun e => LogEntry.id e <> entryId) l ->
  List.filter (otherThan entryId) l = l.
Proof.
  induction 1 as [|e l He Hl IH]; cbn; [reflexivity |].
  rewrite (proj2 (otherThan_true entryId e) He), IH. reflexivity.
Qed.

Lemma handleRemoveFood_success_run (env : Env) (entryId : string) (w : World) :
  io_ok env (length (calls w)) = true ->
  handleRemoveFood env entryId w =
    (Returned tt,
     exec (notify STORAGE_USER_ID)
       (withStorage (removed STORAGE_USER_ID entryId)
          (withCalls (fun cs => cs ++ [CDelete STORAGE_USER_ID entryId]) w))).
Proof.
  intros H. unfold handleRemoveFood, tryCatch.
  rewrite (deleteLogEntry_succeeds env _ _ w H). reflexivity.
Qed.

(** X6. When the delete goes through, [handleRemoveFood] leaves in the
    stored list exactly the entries whose id differs from the given one,
    in their order; an id that no stored entry has leaves the list as it
    is; profiles and other users' entries are untouched and nothing is
    written to the console. The handler does not update [loggedFoods]
    itself: with [App]'s subscription in place [loggedFoods] becomes the
    new stored list through the notification, with nothing subscribed the
    React state stays as it was. *)
Theorem handleRemoveFood_removes (env : Env) (entryId : string) (w : World) :
  io_ok env (length (calls w)) = true ->
  let old := listEntries STORAGE_USER_ID (storage w) in
  let w' := exec (handleRemoveFood env entryId) w in
  listEntries STORAGE_USER_ID (storage w') = List.filter (otherThan entryId) old /\
  (forall e, In e (listEntries STORAGE_USER_ID (storage w'))
             <-> In e old /\ LogEntry.id e <> entryId) /\
  (Forall (fun e => LogEntry.id e <> entryId) old ->
   listEntries STORAGE_USER_ID (storage w') = old) /\
  profiles (storage w') = profiles (storage w) /\
  (forall u, u <> STORAGE_USER_ID -> logs (storage w') !! u = logs (storage w) !! u) /\
  calls w' = calls w ++ [CDelete STORAGE_USER_ID entryId] /\
  console w' = console w /\
  (appSubscribed w ->
   loggedFoods (app w') = listEntries STORAGE_USER_ID (storage w') /\
   error (app w') = error (app w) /\ goals (app w') = goals (app w)) /\
  (subscribersOf STORAGE_USER_ID w = [] -> app w' = app w).
Proof.
  intros Hok. cbn zeta. unfold exec.
  rewrite (handleRemoveFood_success_run env entryId w Hok). cbn [snd].
  match goal with |- context [exec (notify _) ?x] =>
    pose proof (notify_frame STORAGE_USER_ID x) as F;
    pose proof (notify_app STORAGE_USER_ID x) as Happ;
    set (w1 := exec (notify STORAGE_USER_ID) x) in *
  end.
  cbn zeta in F. destruct F as (Hs & Hc & Hk & _ & _ & _ & _ & _).
  cbn [storage withStorage withCalls] in Hs, Happ.
  unfold subscribersOf in Happ. cbn [bus withStorage withCalls] in Happ.
  fold (subscribersOf STORAGE_USER_ID w) in Happ.
  rewrite listEntries_removed in Happ.
  assert (Hl : listEntries STORAGE_USER_ID (storage w1)
               = List.filter (otherThan entryId) (listEntries STORAGE_USER_ID (storage w)))
    by (rewrite Hs; apply listEntries_removed).
  split; [exact Hl |]. split.
  { intros e. rewrite Hl, filter_In, otherThan_true. reflexivity. }
  split.
  { intros Habs. rewrite Hl. by apply filter_otherThan_absent. }
  split; [rewrite Hs; reflexivity |]. split.
  { intros u Hu. rewrite Hs. apply logs_removed_other. congruence. }
  split; [rewrite Hc; reflexivity |]. split; [rewrite Hk; reflexivity |]. split.
  - intros [Hne Hall]. rewrite Hl, Happ.
    rewrite viewAfter_appCallback by assumption. repeat split.
  - intros Hnone. rewrite Happ, Hnone. reflexivity.
Qed.

Lemma handleRemoveFood_removes_witness :
  let w := exec (handleAddFood reliableEnv (Some [apple; bread])) freshWorld in
  io_ok reliableEnv (length (calls w)) = true /\
  map LogEntry.name
    (listEntries STORAGE_USER_ID
       (storage (exec (handleRemoveFood reliableEnv "1717279140000k3x9q2m7a") w)))
  = ["bread"].
Proof.
  cbn zeta. split; [reflexivity |].
  destruct (handleRemoveFood_removes reliableEnv "1717279140000k3x9q2m7a"
              (exec (handleAddFood reliableEnv (Some [apple; bread])) freshWorld) eq_refl)
    as (Hl & _).
  rewrite Hl. reflexivity.
Defined.

(** X7. Adding one item and then removing the entry just created restores
    the stored list, provided both operations go through and no entry
    stored before has the id of the new entry. *)
Theorem add_then_remove_restores (env : Env) (food : FoodItem.t) (w : World) :
  io_ok env (length (calls w)) = true ->
  io_ok env (S (length (calls w))) = true ->
  let e := entryAt env w food in
  let old := listEntries STORAGE_USER_ID (storage w) in
  Forall (fun x => LogEntry.id x <> LogEntry.id e) old ->
  let w1 := exec (handleAddFood env (Some [food])) w in
  let w2 := exec (handleRemoveFood env (LogEntry.id e)) w1 in
  listEntries STORAGE_USER_ID (storage w1) = old ++ [e] /\
  listEntries STORAGE_USER_ID (storage w2) = old.
Proof.
  intros Hok1 Hok2. cbn zeta. intros Hfresh.
  assert (Hok : forall i, (i < length [food])%nat -> io_ok env (length (calls w) + i) = true).
  { intros i Hi. cbn in Hi. replace i with 0%nat by lia. rewrite Nat.add_0_r. exact Hok1. }
  destruct (handleAddFood_success_run env [food] w ltac:(discriminate) Hok) as (A & _ & E).
  unfold exec at 1 3. rewrite E. cbn [snd].
  set (w0 := exec (addLoop env [food] []) w) in *.
  set (w1 := exec (setLoggedFoods _) w0).
  assert (Hl1 : listEntries STORAGE_USER_ID (storage w1)
                = listEntries STORAGE_USER_ID (storage w) ++ [entryAt env w food])
    by apply (adds_list _ _ _ _ A).
  split; [exact Hl1 |].
  assert (Hc1 : io_ok env (length (calls w1)) = true).
  { change (calls w1) with (calls w0). rewrite (adds_calls _ _ _ _ A), length_app. cbn.
    rewrite Nat.add_1_r. exact Hok2. }
  unfold exec at 1. rewrite (handleRemoveFood_success_run env _ w1 Hc1). cbn [snd].
  match goal with |- context [exec (notify _) ?x] =>
    destruct (notify_frame STORAGE_USER_ID x) as (Hs & _)
  end.
  rewrite Hs. cbn [storage withStorage withCalls].
  rewrite listEntries_removed, Hl1, List.filter_app, filter_otherThan_absent by exact Hfresh.
  cbn. unfold otherThan. rewrite String.eqb_refl. cbn. apply app_nil_r.
Qed.

Lemma add_then_remove_restores_witness :
  io_ok reliableEnv (length (calls freshWorld)) = true /\
  io_ok reliableEnv (S (length (calls freshWorld))) = true /\
  listEntries STORAGE_USER_ID
    (storage (exec (handleRemoveFood reliableEnv
                      (LogEntry.id (entryAt reliableEnv freshWorld apple)))
                (exec (handleAddFood reliableEnv (Some [apple])) freshWorld)))
  = listEntries STORAGE_USER_ID (storage freshWorld).
Proof.
  split; [reflexivity |]. split; [reflexivity |].
  apply (add_then_remove_restores reliableEnv apple freshWorld eq_refl eq_refl).
  constructor.
Defined.

(** ** The profile effects *)

(** X8. [initializeUser] always ends with [userInitialized] set, reads the
    profile once and changes neither the storage nor [loggedFoods]. When
    the read fails it sets its error message and leaves [goals] and the
    quiz alone. When the read goes through: with no stored profile it opens
    the quiz and keeps [goals]; with a stored profile it leaves the quiz as
    it is and takes over the profile's goals if it has any. *)
Theorem initializeUser_outcomes (env : Env) (w : World) :
  let w' := exec (initializeUser env) w in
  userInitialized (app w') = true /\
  storage w' = storage w /\
  calls w' = calls w ++ [CGetProfile STORAGE_USER_ID] /\
  loggedFoods (app w') = loggedFoods (app w) /\
  (io_ok env (length (calls w)) = false ->
   error (app w') = Some "Failed to initialize user profile." /\
   goals (app w') = goals (app w) /\
   showQuizModal (app w') = showQuizModal (app w)) /\
  (io_ok env (length (calls w)) = true ->
   error (app w') = error (app w) /\
   console w' = console w /\
   match profiles (storage w) !! STORAGE_USER_ID with
   | None => showQuizModal (app w') = true /\ goals (app w') = goals (app w)
   | Some p =>
       showQuizModal (app w') = showQuizModal (app w) /\
       goals (app w') = default (goals (app w)) (macroGoalsOf p)
   end).
Proof.
  cbn zeta. unfold exec, initializeUser, tryCatch, bind. cbn beta.
  rewrite getUserProfile_run.
  destruct (io_ok env (length (calls w))).
  - destruct (profiles (storage w) !! STORAGE_USER_ID) as [p|].
    + destruct (macroGoalsOf p); cbn; repeat split; intros; try discriminate; reflexivity.
    + cbn. repeat split; intros; try discriminate; reflexivity.
  - cbn. repeat split; intros; try discriminate; reflexivity.
Qed.

Lemma initializeUser_outcomes_witness :
  io_ok reliableEnv (length (calls freshWorld)) = true /\
  showQuizModal (app (exec (initializeUser reliableEnv) freshWorld)) = true.
Proof.
  split; [reflexivity |].
  destruct (initializeUser_outcomes reliableEnv freshWorld) as (_ & _ & _ & _ & _ & H).
  destruct (H eq_refl) as (_ & _ & Hq). exact (proj1 Hq).
Defined.

(** X9. [loadUserProfile] reads the profile once and never touches the
    quiz, [userInitialized], [loggedFoods] or the storage, even when no
    profile is stored. It takes over the stored goals when the read goes
    through and the profile has goals, keeps [goals] otherwise, and sets
    its error message exactly when the read fails. *)
Theorem loadUserProfile_outcomes (env : Env) (w : World) :
  let w' := exec (loadUserProfile env) w in
  showQuizModal (app w') = showQuizModal (app w) /\
  userInitialized (app w') = userInitialized (app w) /\
  loggedFoods (app w') = loggedFoods (app w) /\
  storage w' = storage w /\
  calls w' = calls w ++ [CGetProfile STORAGE_USER_ID] /\
  (io_ok env (length (calls w)) = false ->
   error (app w') = Some "Failed to load user profile. Using local data." /\
   goals (app w') = goals (app w)) /\
  (io_ok env (length (calls w)) = true ->
   error (app w') = error (app w) /\
   goals (app w')
   = default (goals (app w)) (profiles (storage w) !! STORAGE_USER_ID ≫= macroGoalsOf)).
Proof.
  cbn zeta. unfold exec, loadUserProfile, tryCatch, bind. cbn beta.
  rewrite getUserProfile_run.
  destruct (io_ok env (length (calls w))).
  - destruct (profiles (storage w) !! STORAGE_USER_ID ≫= macroGoalsOf);
      cbn; repeat split; intros; try discriminate; reflexivity.
  - cbn. repeat split; intros; try discriminate; reflexivity.
Qed.

Lemma loadUserProfile_outcomes_witness :
  io_ok brokenEnv (length (calls freshWorld)) = false /\
  error (app (exec (loadUserProfile brokenEnv) freshWorld))
  = Some "Failed to load user profile. Using local data.".
Proof.
  split; [reflexivity |].
  destruct (loadUserProfile_outcomes brokenEnv freshWorld) as (_ & _ & _ & _ & _ & H & _).
  exact (proj1 (H eq_refl)).
Defined.

Lemma macroGoalsOf_merged (g : MacroGoals.t) (p : UserProfile) :
  macroGoalsOf (mergeProfile {[ "macroGoals" := AGoals g ]} p) = Some g.
Proof.
  unfold macroGoalsOf, mergeProfile. cbn.
  rewrite (lookup_union_Some_l _ _ _ (AGoals g)); [reflexivity |].
  apply lookup_singleton_eq.
Qed.

(** X10. [saveGoals] issues one profile update carrying only [macroGoals]
    and never changes [goals], [loggedFoods] or the stored entries. When
    the write fails the storage is unchanged, the failure is logged and
    [error] is set, so the goals on screen are no longer the stored ones.
    When it goes through, the React state and the console are untouched,
    the stored goals of the local user are [goals], and the profiles of
    other users are as before. *)
Theorem saveGoals_outcomes (env : Env) (w : World) :
  let w' := exec (saveGoals env) w in
  calls w'
  = calls w ++ [CUpdateProfile STORAGE_USER_ID {[ "macroGoals" := AGoals (goals (app w)) ]}] /\
  goals (app w') = goals (app w) /\
  loggedFoods (app w') = loggedFoods (app w) /\
  logs (storage w') = logs (storage w) /\
  (io_ok env (length (calls w)) = false ->
   storage w' = storage w /\
   error (app w') = Some "Failed to save goals." /\
   console w' = console w ++ [("Failed to save goals", PersistenceError)]) /\
  (io_ok env (length (calls w)) = true ->
   app w' = app w /\
   console w' = console w /\
   (profiles (storage w') !! STORAGE_USER_ID ≫= macroGoalsOf) = Some (goals (app w)) /\
   (forall u, u <> STORAGE_USER_ID ->
              profiles (storage w') !! u = profiles (storage w) !! u)).
Proof.
  cbn zeta. unfold exec, saveGoals, tryCatch, bind, gets. cbn beta.
  destruct (io_ok env (length (calls w))) eqn:E.
  - rewrite (updateUserProfile_succeeds env _ _ w E). cbn.
    split; [reflexivity |]. split; [reflexivity |]. split; [reflexivity |].
    split; [reflexivity |]. split; [discriminate |]. intros _.
    split; [by destruct w as [? ? [] ? ? ? ?] |]. split; [reflexivity |]. split.
    + rewrite lookup_insert_eq. cbn. apply macroGoalsOf_merged.
    + intros u Hu. by rewrite lookup_insert_ne.
  - rewrite (updateUserProfile_fails env _ _ w E). cbn.
    repeat split; intros; try discriminate; reflexivity.
Qed.

Lemma saveGoals_outcomes_witness :
  io_ok brokenEnv (length (calls freshWorld)) = false /\
  storage (exec (saveGoals brokenEnv) freshWorld) = storage freshWorld /\
  error (app (exec (saveGoals brokenEnv) freshWorld)) = Some "Failed to save goals.".
Proof.
  split; [reflexivity |].
  destruct (saveGoals_outcomes brokenEnv freshWorld) as (_ & _ & _ & _ & H & _).
  destruct (H eq_refl) as (Hs & He & _). split; assumption.
Defined.

(** ** Goals across a reload *)

Lemma save_then_reload (env : Env) (w : World) :
  io_ok env (length (calls w)) = true ->
  let w2 := exec (windowLocationReload env) (exec (saveGoals env) w) in
  length (calls w2) = S (length (calls w)) /\
  app w2 = initialApp (newDate (now_at env (ticks w))) /\
  (profiles (storage w2) !! STORAGE_USER_ID ≫= macroGoalsOf) = Some (goals (app w)).
Proof.
  intros Hok. cbn zeta.
  unfold exec, saveGoals, tryCatch, bind, gets. cbn beta.
  rewrite (updateUserProfile_succeeds env _ _ w Hok). cbn.
  split; [rewrite length_app; cbn; lia |]. split; [reflexivity |].
  rewrite lookup_insert_eq. cbn. apply macroGoalsOf_merged.
Qed.

Lemma initializeUser_restores (env : Env) (v : World) (g : MacroGoals.t) :
  io_ok env (length (calls v)) = true ->
  (profiles (storage v) !! STORAGE_USER_ID ≫= macroGoalsOf) = Some g ->
  let v' := exec (initializeUser env) v in
  goals (app v') = g /\
  showQuizModal (app v') = showQuizModal (app v) /\
  error (app v') = error (app v).
Proof.
  intros Hok Hp. cbn zeta.
  unfold exec, initializeUser, tryCatch, bind. cbn beta.
  rewrite getUserProfile_run, Hok.
  destruct (profiles (storage v) !! STORAGE_USER_ID) as [p|]; [| discriminate].
  cbn in Hp. rewrite Hp. cbn. repeat split.
Qed.

Lemma loadUserProfile_restores (env : Env) (v : World) (g : MacroGoals.t) :
  io_ok env (length (calls v)) = true ->
  (profiles (storage v) !! STORAGE_USER_ID ≫= macroGoalsOf) = Some g ->
  goals (app (exec (loadUserProfile env) v)) = g.
Proof.
  intros Hok Hp.
  unfold exec, loadUserProfile, tryCatch, bind. cbn beta.
  rewrite getUserProfile_run, Hok, Hp. reflexivity.
Qed.

(** X11. Goals saved by [saveGoals] survive a reload of the page: after
    the reload [goals] are the built-in defaults again, and either of
    [initializeUser] and [loadUserProfile] sets them back to the goals
    that were saved; [initializeUser] does not open the quiz and sets no
    error. Both the write and the later read are assumed to go through. *)
Theorem saved_goals_survive_reload (env : Env) (w : World) :
  io_ok env (length (calls w)) = true ->
  io_ok env (S (length (calls w))) = true ->
  let w2 := exec (windowLocationReload env) (exec (saveGoals env) w) in
  goals (app w2) = defaultGoals /\
  goals (app (exec (initializeUser env) w2)) = goals (app w) /\
  showQuizModal (app (exec (initializeUser env) w2)) = false /\
  error (app (exec (initializeUser env) w2)) = None /\
  goals (app (exec (loadUserProfile env) w2)) = goals (app w).
Proof.
  intros Hok1 Hok2. cbn zeta.
  destruct (save_then_reload env w Hok1) as (Hc & Ha & Hp).
  set (w2 := exec (windowLocationReload env) (exec (saveGoals env) w)) in *.
  assert (Hok : io_ok env (length (calls w2)) = true) by (rewrite Hc; exact Hok2).
  destruct (initializeUser_restores env w2 _ Hok Hp) as (Hg & Hq & He).
  rewrite Hg, Hq, He, Ha, (loadUserProfile_restores env w2 _ Hok Hp).
  repeat split.
Qed.

Lemma saved_goals_survive_reload_witness :
  let w := exec (profileGoalChange MacroGoals.Calories 1800) freshWorld in
  io_ok reliableEnv (length (calls w)) = true /\
  io_ok reliableEnv (S (length (calls w))) = true /\
  MacroGoals.calories
    (goals (app (exec (initializeUser reliableEnv)
                   (exec (windowLocationReload reliableEnv)
                      (exec (saveGoals reliableEnv) w))))) = 1800.
Proof.
  cbn zeta. split; [reflexivity |]. split; [reflexivity |].
  destruct (saved_goals_survive_reload reliableEnv
              (exec (profileGoalChange MacroGoals.Calories 1800) freshWorld)
              eq_refl eq_refl) as (_ & Hg & _).
  rewrite Hg. reflexivity.
Defined.

(** X12. Completing the quiz closes it and makes its goals the [goals]
    state; once [saveGoals] has stored them, [initializeUser] after a
    reload takes them over and does not open the quiz again. *)
Theorem quiz_goals_survive_reload (env : Env) (w : World) (newGoals : MacroGoals.t) :
  io_ok env (length (calls w)) = true ->
  io_ok env (S (length (calls w))) = true ->
  let v := exec (quizComplete newGoals) w in
  let w3 := exec (initializeUser env)
              (exec (windowLocationReload env) (exec (saveGoals env) v)) in
  showQuizModal (app v) = false /\
  goals (app v) = newGoals /\
  storage v = storage w /\
  goals (app w3) = newGoals /\
  showQuizModal (app w3) = false.
Proof.
  intros Hok1 Hok2. cbn zeta.
  set (v := exec (quizComplete newGoals) w).
  split; [reflexivity |]. split; [reflexivity |]. split; [reflexivity |].
  destruct (save_then_reload env v Hok1) as (Hc & Ha & Hp).
  set (w2 := exec (windowLocationReload env) (exec (saveGoals env) v)) in *.
  assert (Hok : io_ok env (length (calls w2)) = true) by (rewrite Hc; exact Hok2).
  destruct (initializeUser_restores env w2 _ Hok Hp) as (Hg & Hq & _).
  rewrite Hg, Hq, Ha. split; reflexivity.
Qed.

Lemma quiz_goals_survive_reload_witness :
  io_ok reliableEnv (length (calls freshWorld)) = true /\
  io_ok reliableEnv (S (length (calls freshWorld))) = true /\
  goals (app (exec (initializeUser reliableEnv)
                (exec (windowLocationReload reliableEnv)
                   (exec (saveGoals reliableEnv)
                      (exec (quizComplete (MacroGoals.mk 1800 140 200 60)) freshWorld)))))
  = MacroGoals.mk 1800 140 200 60.
Proof.
  split; [reflexivity |]. split; [reflexivity |].
  apply (quiz_goals_survive_reload reliableEnv freshWorld (MacroGoals.mk 1800 140 200 60)
           eq_refl eq_refl).
Defined.

(** ** Clearing and starting over *)

(** X13. After a confirmed [handleClearData] the application is at its
    first run again: the registry is empty and no error is shown; the
    subscription effect delivers the empty list, and [initializeUser],
    when its read goes through, opens the quiz and leaves the default
    goals in place. *)
Theorem clear_then_first_run (env : Env) (w : World) :
  io_ok env (length (calls w)) = true ->
  let w1 := exec (handleClearData env true) w in
  registry (bus w1) = [] /\
  error (app w1) = None /\
  loggedFoods (app (exec subscribeEffect w1)) = [] /\
  showQuizModal (app (exec (initializeUser env) w1)) = true /\
  goals (app (exec (initializeUser env) w1)) = defaultGoals.
Proof.
  intros Hok. cbn zeta.
  split; [reflexivity |]. split; [reflexivity |]. split; [reflexivity |].
  unfold exec at 1 3, initializeUser, tryCatch, bind. cbn beta.
  rewrite getUserProfile_run.
  change (calls (exec (handleClearData env true) w)) with (calls w). rewrite Hok.
  split; reflexivity.
Qed.

Lemma clear_then_first_run_witness :
  is_Some (profiles (storage savedWorld) !! STORAGE_USER_ID) /\
  io_ok reliableEnv (length (calls savedWorld)) = true /\
  showQuizModal (app (exec (initializeUser reliableEnv)
                        (exec (handleClearData reliableEnv true) savedWorld))) = true.
Proof.
  split; [vm_compute; eauto |]. split; [reflexivity |].
  apply (clear_then_first_run reliableEnv savedWorld eq_refl).
Defined.

(** ** Changes of goals *)

Lemma profileGoalChange_goals (key : MacroGoals.key) (value : Z) (w : World) :
  goals (app (exec (profileGoalChange key value) w))
  = MacroGoals.set key value (goals (app w)).
Proof. reflexivity. Qed.

(** X14. Goal changes made one render after the other compose as
    expected: a change touches nothing but [goals]; of two changes of the
    same field the later value stays; changes of different fields can be
    made in either order and both values stay; and changing a field to
    the value it has changes nothing. *)
Theorem goal_changes_compose (w : World) (k1 k2 : MacroGoals.key) (v1 v2 : Z) :
  let once := exec (profileGoalChange k1 v1) w in
  let twice := exec (profileGoalChange k2 v2) once in
  storage once = storage w /\ calls once = calls w /\
  loggedFoods (app once) = loggedFoods (app w) /\ error (app once) = error (app w) /\
  (k1 = k2 -> goals (app twice) = goals (app (exec (profileGoalChange k2 v2) w))) /\
  (k1 <> k2 ->
   goals (app twice)
   = goals (app (exec (profileGoalChange k1 v1) (exec (profileGoalChange k2 v2) w))) /\
   MacroGoals.get k1 (goals (app twice)) = v1 /\
   MacroGoals.get k2 (goals (app twice)) = v2) /\
  goals (app (exec (profileGoalChange k1 (MacroGoals.get k1 (goals (app w)))) w))
  = goals (app w).
Proof.
  cbn zeta. rewrite !profileGoalChange_goals.
  split; [reflexivity |]. split; [reflexivity |].
  split; [reflexivity |]. split; [reflexivity |].
  destruct (goals (app w)) as [c p cb f].
  split; [| split].
  - intros ->. destruct k2; reflexivity.
  - intros Hne. destruct k1, k2; try congruence; repeat split.
  - destruct k1; reflexivity.
Qed.

Lemma goal_changes_compose_witness :
  MacroGoals.Calories <> MacroGoals.Fat /\
  goals (app (exec (profileGoalChange MacroGoals.Fat 70)
                (exec (profileGoalChange MacroGoals.Calories 1800) freshWorld)))
  = MacroGoals.mk 1800 150 250 70.
Proof.
  split; [discriminate |].
  destruct (goal_changes_compose freshWorld MacroGoals.Calories MacroGoals.Fat 1800 70)
    as (_ & _ & _ & _ & _ & H & _).
  destruct (H ltac:(discriminate)) as (Hg & _). rewrite Hg. reflexivity.
Defined.

(** X15. [handleGoalChange] builds the new record from the [goals] prop of
    the render it belongs to, not from the current state: of two changes
    issued from the same render only the second survives, and the field
    the first one changed is back at the value of the prop. *)
Theorem goal_changes_from_one_render (w : World) (g : MacroGoals.t)
    (k1 k2 : MacroGoals.key) (v1 v2 : Z) :
  let w' := exec (handleGoalChange g setGoals k2 v2)
              (exec (handleGoalChange g setGoals k1 v1) w) in
  goals (app w') = MacroGoals.set k2 v2 g /\
  (k1 <> k2 -> MacroGoals.get k1 (goals (app w')) = MacroGoals.get k1 g).
Proof.
  cbn zeta. split; [reflexivity |].
  intros Hne. cbn. destruct k1, k2; try congruence; reflexivity.
Qed.

Lemma goal_changes_from_one_render_witness :
  MacroGoals.Calories <> MacroGoals.Fat /\
  MacroGoals.get MacroGoals.Calories
    (goals (app (exec (handleGoalChange defaultGoals setGoals MacroGoals.Fat 70)
                   (exec (handleGoalChange defaultGoals setGoals MacroGoals.Calories 1800)
                      freshWorld))))
  = 2000.
Proof.
  split; [discriminate |].
  destruct (goal_changes_from_one_render freshWorld defaultGoals
              MacroGoals.Calories MacroGoals.Fat 1800 70) as (_ & H).
  apply H. discriminate.
Defined.

(** ** New entries and the selected day *)

Lemma batchEntries_timestamps (env : Env) (foods : list FoodItem.t) :
  forall tick draw,
    Forall (fun e => exists n, (tick <= n)%nat /\
                               LogEntry.timestamp e = JNumber (now_at env n))
      (batchEntries env tick draw foods).
Proof.
  induction foods as [|food rest IH]; intros tick draw; cbn [batchEntries]; constructor.
  - exists (S tick). split; [lia | reflexivity].
  - eapply List.Forall_impl; [| apply (IH (S (S tick)) (S draw))].
    intros e (n & Hn & Ht). exists n. split; [lia | exact Ht].
Qed.

(** X16. An entry created by [handleAddFood] is stamped with the clock and
    not with the selected date: each stored entry of a successful batch
    carries a clock reading taken during the call, and the day filter
    keeps it exactly when that reading is a valid time value of the
    selected date's calendar day. An item logged while another day is
    selected is therefore not in that day's food log. *)
Theorem new_entries_filed_under_clock_day (env : Env) (foods : list FoodItem.t) (w : World) :
  (forall i, (i < length foods)%nat -> io_ok env (length (calls w) + i) = true) ->
  let w' := exec (handleAddFood env (Some foods)) w in
  exists new,
    listEntries STORAGE_USER_ID (storage w')
      = listEntries STORAGE_USER_ID (storage w) ++ new /\
    length new = length foods /\
    Forall (fun e =>
      exists n, (ticks w <= n)%nat /\
        LogEntry.timestamp e = JNumber (now_at env n) /\
        forall selected,
          onSelectedDay env selected e = true <->
          exists s, selected = Some s /\ Z.abs (now_at env n) <= maxTimeValue /\
                    localDay env (now_at env n) = localDay env s) new.
Proof.
  intros Hok. cbn zeta.
  destruct (handleAddFood_success env foods w Hok) as (w1 & A & E).
  exists (batchEntries env (ticks w) (draws w) foods).
  unfold exec. rewrite E. cbn.
  split; [apply (adds_list _ _ _ _ A) |]. split; [apply batchEntries_length |].
  eapply List.Forall_impl; [| apply batchEntries_timestamps].
  intros e (n & Hn & Ht). exists n. split; [exact Hn |]. split; [exact Ht |].
  intros selected. rewrite onSelectedDay_keptOnDay. unfold keptOnDay. rewrite Ht. split.
  - intros [Hnot | (n' & s & Hn' & Hv & Hs & Hd)]; [exfalso; apply Hnot; reflexivity |].
    inversion Hn'; subst. exists s. auto.
  - intros (s & Hs & Hv & Hd). right. exists (now_at env n), s. auto.
Qed.

Lemma new_entries_filed_under_clock_day_witness :
  (forall i, (i < length [apple])%nat ->
     io_ok reliableEnv (length (calls freshWorld) + i) = true) /\
  exists new,
    listEntries STORAGE_USER_ID
      (storage (exec (handleAddFood reliableEnv (Some [apple])) freshWorld))
    = listEntries STORAGE_USER_ID (storage freshWorld) ++ new /\
    length new = 1%nat.
Proof.
  assert (Hok : forall i, (i < length [apple])%nat ->
            io_ok reliableEnv (length (calls freshWorld) + i) = true)
    by (intros; reflexivity).
  split; [exact Hok |].
  destruct (new_entries_filed_under_clock_day reliableEnv [apple] freshWorld Hok)
    as (new & Hl & Hlen & _).
  exists new. split; assumption.
Defined.

(** ** What is rendered *)

Definition isTracker (e : Element) : bool :=
  match e with
  | MacroTrackerEl _ _ => true
  | _ => false
  end.

Definition isBottomNav (e : Element) : bool :=
  match e with
  | BottomNavEl _ => true
  | _ => false
  end.

Definition isModal (e : Element) : bool :=
  match e with
  | LogFoodModalEl _ | UserQuizModalEl => true
  | _ => false
  end.

(** X17. In every state [App] renders the bottom navigation exactly when
    neither the log-food modal nor the quiz is open, and never together
    with either of them. It renders one macro tracker in the main, insights
    and calendar sections and none in the profile section; the tracker of
    the calendar section gets the entries of the selected day, the others
    get all of [loggedFoods]. The error notice is rendered exactly when
    the banner has a message. *)
Theorem render_layout (env : Env) (a : AppState) (ui : UiState) :
  let r := render env a ui in
  (In (BottomNavEl (activeSection ui)) r
   <-> isOpen (modalConfig ui) = false /\ showQuizModal a = false) /\
  (existsb isBottomNav r = true -> existsb isModal r = false) /\
  length (List.filter isTracker r)
  = (if isSection (activeSection ui) ProfileSection then 0 else 1)%nat /\
  (forall foods g,
     In (MacroTrackerEl foods g) r ->
     g = goals a /\
     foods = if isSection (activeSection ui) CalendarSection
             then foodLogItems env a else loggedFoods a) /\
  (forall msg, In (ErrorNotice msg) r <-> errorBanner a = Some msg).
Proof.
  cbn zeta. unfold render, foodLogCard.
  destruct ui as [[open tab] section]. cbn [activeSection modalConfig isOpen initialTab].
  split; [| split; [| split; [| split]]].
  - destruct (errorBanner a), section, open, (showQuizModal a),
      (0 <? length (foodLogItems env a))%nat;
      cbn -[foodLogItems macroTrackerFoods];
      (split; [intros H; repeat destruct H as [H | H];
               try discriminate; try contradiction; auto
              | intros [? ?]; try discriminate; auto 12]).
  - destruct (errorBanner a), section, open, (showQuizModal a),
      (0 <? length (foodLogItems env a))%nat;
      cbn -[foodLogItems macroTrackerFoods]; intros H; try discriminate; reflexivity.
  - destruct (errorBanner a), section, open, (showQuizModal a),
      (0 <? length (foodLogItems env a))%nat; reflexivity.
  - intros foods g.
    destruct (errorBanner a), section, open, (showQuizModal a),
      (0 <? length (foodLogItems env a))%nat;
      cbn -[foodLogItems macroTrackerFoods]; intros H;
      repeat destruct H as [H | H];
      try discriminate; try contradiction; inversion H; split; reflexivity.
  - intros msg.
    destruct (errorBanner a) as [m|], section, open, (showQuizModal a),
      (0 <? length (foodLogItems env a))%nat;
      cbn -[foodLogItems macroTrackerFoods];
      (split; [intros H; repeat destruct H as [H | H];
               try discriminate; try contradiction; congruence
              | intros H; try discriminate; inversion H; auto]).
Qed.

Lemma render_layout_witness :
  existsb isBottomNav (render sampleEnv juneFirst initialUi) = true /\
  existsb isModal (render sampleEnv juneFirst initialUi) = false.
Proof.
  split; [reflexivity |].
  destruct (render_layout sampleEnv juneFirst initialUi) as (_ & H & _).
  apply H. reflexivity.
Defined.

(** X18. Opening the log-food modal shows it with the requested tab and
    hides the bottom navigation; closing it forgets the tab, whichever was
    open, and brings the navigation back unless the quiz is open; neither
    changes the active section, and changing the section neither opens nor
    closes the modal. *)
Theorem modal_and_navigation (env : Env) (a : AppState) (ui : UiState)
    (tab : ModalTab) (section : NavSection) :
  In (LogFoodModalEl tab) (render env a (handleOpenModal tab ui)) /\
  existsb isBottomNav (render env a (handleOpenModal tab ui)) = false /\
  handleCloseModal (handleOpenModal tab ui) = handleCloseModal ui /\
  activeSection (handleOpenModal tab ui) = activeSection ui /\
  activeSection (handleCloseModal ui) = activeSection ui /\
  existsb isModal (render env a (handleCloseModal ui)) = showQuizModal a /\
  existsb isBottomNav (render env a (handleCloseModal ui)) = negb (showQuizModal a) /\
  modalConfig (handleNavChange section ui) = modalConfig ui /\
  activeSection (handleNavChange section ui) = section.
Proof.
  unfold render, foodLogCard.
  destruct ui as [[open tab0] section0].
  cbn [handleOpenModal handleCloseModal handleNavChange activeSection modalConfig
       isOpen initialTab].
  split; [| split; [| split; [| split; [| split; [| split; [| split; [| split]]]]]]];
    try reflexivity.
  - destruct (errorBanner a), section0, (showQuizModal a);
      cbn -[foodLogItems macroTrackerFoods]; auto 12.
  - destruct (errorBanner a), section0, (showQuizModal a),
      (0 <? length (foodLogItems env a))%nat; reflexivity.
  - destruct (errorBanner a), section0, (showQuizModal a),
      (0 <? length (foodLogItems env a))%nat; reflexivity.
  - destruct (errorBanner a), section0, (showQuizModal a),
      (0 <? length (foodLogItems env a))%nat; reflexivity.
Qed.

(** ** Entry ids *)

Lemma string_length_append (a b : string) :
  String.length (a +:+ b) = (String.length a + String.length b)%nat.
Proof.
  induction a as [|c a IH]; [reflexivity |].
  change (S (String.length (a +:+ b)) = S (String.length a + String.length b)).
  by rewrite IH.
Qed.

Lemma string_append_inj (a c b d : string) :
  String.length b = String.length d ->
  a +:+ b = c +:+ d ->
  a = c /\ b = d.
Proof.
  revert c. induction a as [|x a IH]; intros [|y c] Hlen H.
  - split; [reflexivity | exact H].
  - exfalso. change (b = String y (c +:+ d)) in H. subst b.
    change (S (String.length (c +:+ d)) = String.length d) in Hlen.
    rewrite string_length_append in Hlen. lia.
  - exfalso. change (String x (a +:+ b) = d) in H. subst d.
    change (String.length b = S (String.length (a +:+ b))) in Hlen.
    rewrite string_length_append in Hlen. lia.
  - change (String x (a +:+ b) = String y (c +:+ d)) in H.
    inversion H as [[Hx Hrest]]. destruct (IH c Hlen Hrest) as [-> ->].
    split; reflexivity.
Qed.

Lemma string_length_substring (s : string) :
  forall n m, (n + m <= String.length s)%nat -> String.length (substring n m s) = m.
Proof.
  induction s as [|c s IH]; intros n m H; cbn in H.
  - assert (n = 0%nat) by lia. assert (m = 0%nat) by lia. subst. reflexivity.
  - destruct n as [|n].
    + destruct m as [|m]; [reflexivity |]. cbn. rewrite (IH 0%nat m) by lia. reflexivity.
    + cbn. apply IH. lia.
Qed.

(** X19. The id of an entry determines the clock reading and the nine
    random characters it was built from, as long as the random source
    yields at least eleven characters: two entries with the same id were
    built from the same reading and the same random suffix. *)
Theorem entry_id_determines_its_parts (food food' : FoodItem.t) (t t' t2 t2' : Z)
    (r r' : string) :
  (11 <= String.length r)%nat ->
  (11 <= String.length r')%nat ->
  LogEntry.id (makeEntry food t r t2) = LogEntry.id (makeEntry food' t' r' t2') ->
  t = t' /\ substring 2 9 r = substring 2 9 r'.
Proof.
  intros Hr Hr' H. cbn in H.
  apply string_append_inj in H.
  - destruct H as [Ht Hs]. split; [| exact Hs].
    by apply (inj (pretty : Z -> string)).
  - rewrite !string_length_substring by lia. reflexivity.
Qed.

Lemma entry_id_determines_its_parts_witness :
  (11 <= String.length (random36_at sampleEnv 0))%nat /\
  LogEntry.id (makeEntry apple 1717279140000 (random36_at sampleEnv 0) 1717279140001)
  = LogEntry.id (makeEntry bread 1717279140000 (random36_at sampleEnv 0) 1717279140003) /\
  1717279140000 = 1717279140000.
Proof.
  assert (Hr : (11 <= String.length (random36_at sampleEnv 0))%nat) by (cbn; lia).
  split; [exact Hr |]. split; [reflexivity |].
  apply (entry_id_determines_its_parts apple bread 1717279140000 1717279140000
           1717279140001 1717279140003 _ _ Hr Hr eq_refl).
Defined.

Lemma batchEntries_ids (env : Env) (foods : list FoodItem.t) :
  forall tick draw e,
    In e (batchEntries env tick draw foods) ->
    exists n d, (tick <= n)%nat /\
      LogEntry.id e = pretty (now_at env n) +:+ substring 2 9 (random36_at env d).
Proof.
  induction foods as [|food rest IH]; intros tick draw e Hin; cbn in Hin; [contradiction |].
  destruct Hin as [<- | Hin].
  - exists tick, draw. split; [lia | reflexivity].
  - destruct (IH _ _ _ Hin) as (n & d & Hn & Hid).
    exists n, d. split; [lia | exact Hid].
Qed.

(** X20. When the clock advances between any two readings and the random
    source always yields at least eleven characters, the entries of one
    batch have pairwise different ids. *)
Theorem batch_ids_distinct (env : Env) (foods : list FoodItem.t) (tick draw : nat) :
  (forall i j, (i < j)%nat -> now_at env i < now_at env j) ->
  (forall d, (11 <= String.length (random36_at env d))%nat) ->
  NoDup (map LogEntry.id (batchEntries env tick draw foods)).
Proof.
  intros Hclock Hrand. revert tick draw.
  induction foods as [|food rest IH]; intros tick draw; cbn [batchEntries map].
  - constructor.
  - apply NoDup_cons_2; [| apply IH].
    intros Hin. apply list_elem_of_In, in_map_iff in Hin.
    destruct Hin as (e & Hid & Hin).
    destruct (batchEntries_ids env rest _ _ e Hin) as (n & d & Hn & He).
    rewrite He in Hid. cbn in Hid.
    apply string_append_inj in Hid.
    + destruct Hid as [Ht _]. apply (inj (pretty : Z -> string)) in Ht.
      specialize (Hclock tick n ltac:(lia)). lia.
    + rewrite !string_length_substring; [reflexivity | |];
        match goal with |- context [random36_at env ?x] => specialize (Hrand x) end; lia.
Qed.

(** A clock that advances by one millisecond per reading. *)
Lemma sampleEnv_clock_advances :
  forall i j, (i < j)%nat -> now_at sampleEnv i < now_at sampleEnv j.
Proof. intros i j H. cbn. lia. Qed.

Lemma batch_ids_distinct_witness :
  (forall d, (11 <= String.length (random36_at sampleEnv d))%nat) /\
  NoDup (map LogEntry.id (batchEntries sampleEnv 0 0 [apple; bread; cheese])).
Proof.
  assert (Hr : forall d, (11 <= String.length (random36_at sampleEnv d))%nat)
    by (intros; cbn; lia).
  split; [exact Hr |].
  apply (batch_ids_distinct sampleEnv [apple; bread; cheese] 0 0
           sampleEnv_clock_advances Hr).
Defined.

(** ** The subscription and its cleanup *)

Lemma subscribe_then_cleanup_registry (w : World) :
  registry (bus (exec subscribeCleanup (exec subscribeEffect w)))
  = List.filter (fun s => negb (Nat.eqb (handle s) (nextHandle (bus w)))) (registry (bus w)).
Proof.
  unfold exec, subscribeCleanup, subscribeEffect, bind, gets. cbn.
  rewrite List.filter_app. cbn. rewrite Nat.eqb_refl. cbn. apply app_nil_r.
Qed.

(** X21. The cleanup of the subscription effect undoes the registration
    the effect made: when every registered handle is below the next free
    one, the registry after subscribing and cleaning up is the registry
    from before. The storage is untouched throughout, [loggedFoods] keeps
    the snapshot received on subscribing, and a later notification for the
    local user no longer changes the React state if nothing else is
    subscribed for that user. *)
Theorem subscribe_then_cleanup (w : World) :
  Forall (fun s => (handle s < nextHandle (bus w))%nat) (registry (bus w)) ->
  let w2 := exec subscribeCleanup (exec subscribeEffect w) in
  registry (bus w2) = registry (bus w) /\
  storage w2 = storage w /\
  loggedFoods (app w2) = listEntries STORAGE_USER_ID (storage w) /\
  (subscribersOf STORAGE_USER_ID w = [] ->
   app (exec (notify STORAGE_USER_ID) w2) = app w2).
Proof.
  intros Hwf. cbn zeta.
  assert (Hreg : registry (bus (exec subscribeCleanup (exec subscribeEffect w)))
                 = registry (bus w)).
  { rewrite subscribe_then_cleanup_registry.
    induction Hwf as [|s l Hs Hl IH]; [reflexivity |]. cbn.
    destruct (Nat.eqb_spec (handle s) (nextHandle (bus w))) as [E | _]; [lia |].
    cbn. by rewrite IH. }
  split; [exact Hreg |]. split; [reflexivity |]. split; [reflexivity |].
  intros Hnone. rewrite notify_app. unfold subscribersOf. rewrite Hreg.
  fold (subscribersOf STORAGE_USER_ID w). rewrite Hnone. reflexivity.
Qed.

Lemma subscribe_then_cleanup_witness :
  Forall (fun s => (handle s < nextHandle (bus freshWorld))%nat) (registry (bus freshWorld)) /\
  registry (bus (exec subscribeCleanup (exec subscribeEffect freshWorld)))
  = registry (bus freshWorld).
Proof.
  assert (H : Forall (fun s => (handle s < nextHandle (bus freshWorld))%nat)
                (registry (bus freshWorld))) by constructor.
  split; [exact H |].
  apply (subscribe_then_cleanup freshWorld H).
Defined.

(** ** The food log card *)

(** X22. The "Food Log" card shows the placeholder text exactly when no
    entry passes the day filter, and otherwise shows exactly the filtered
    entries. An entry of [loggedFoods] whose timestamp is not a number
    passes the filter for every selected date, so with such an entry the
    placeholder is never shown. *)
Theorem foodLogCard_placeholder (env : Env) (a : AppState) :
  (foodLogCard env a = FoodLogEmpty "No food logged for this day."
   <-> foodLogItems env a = []) /\
  (foodLogItems env a <> [] -> foodLogCard env a = FoodLogRows (foodLogItems env a)) /\
  (forall e,
     In e (loggedFoods a) ->
     typeof (LogEntry.timestamp e) <> "number" ->
     In e (foodLogItems env a) /\
     foodLogCard env a = FoodLogRows (foodLogItems env a)).
Proof.
  assert (Hrows : foodLogItems env a <> [] ->
                  foodLogCard env a = FoodLogRows (foodLogItems env a)).
  { intros Hne. unfold foodLogCard. destruct (foodLogItems env a); [congruence | reflexivity]. }
  split; [| split; [exact Hrows |]].
  - unfold foodLogCard. destruct (foodLogItems env a) as [|x l]; cbn.
    + split; reflexivity.
    + split; discriminate.
  - intros e Hin Hts.
    assert (He : In e (foodLogItems env a)).
    { unfold foodLogItems. apply filter_In. split; [exact Hin |].
      apply onSelectedDay_keptOnDay. left. exact Hts. }
    split; [exact He |]. apply Hrows. intros Hnil. rewrite Hnil in He. contradiction.
Qed.

Lemma foodLogCard_placeholder_witness :
  In legacyEntry (loggedFoods juneFirst) /\
  typeof (LogEntry.timestamp legacyEntry) <> "number" /\
  In legacyEntry (foodLogItems sampleEnv juneFirst).
Proof.
  assert (Hin : In legacyEntry (loggedFoods juneFirst)) by (right; left; reflexivity).
  assert (Hts : typeof (LogEntry.timestamp legacyEntry) <> "number") by discriminate.
  split; [exact Hin |]. split; [exact Hts |].
  destruct (foodLogCard_placeholder sampleEnv juneFirst) as (_ & _ & H).
  exact (proj1 (H legacyEntry Hin Hts)).
Defined.
